(** * FocusFlow: the Pomodoro timer of [bin/focusflow_app.py] and
    [bin/focusflow_tray.py]

    A shallow embedding of the two front-ends' configuration loading and of
    their timer state machines, followed by the properties of the
    specification that concern them.

    Conventions of the embedding.
    - A finite Python [float] is the rational it denotes ([Q]). A sum or a
      product of floats is rounded to binary64, to nearest with ties to even
      ([fl]); a result too large for a float is [inf] ([round64]), and a
      Python int too large for a float raises [OverflowError]. The
      difference [deadline - now] of a pass is taken exactly: two floats on
      the scale of a clock subtract without rounding.
    - The deadline of a timer is a finite float. Where the code would store
      [inf] or [nan] the state cannot follow, and the model leaves the
      deadline as it was; every statement about a deadline that a start
      sets is made where the sum is finite.
    - [time.time()] is an input: every operation takes the clock readings it
      consumes as arguments, in the order the code reads them.
    - A raised exception is a value ([inl e]); [try ... except Exception] is
      [try_except].
    - The text of the settings file is kept up to what [json.loads] makes of
      it: either it does not parse, or it parses to a value, and
      [json.dumps v] is a text that parses back to [v]. *)

From Stdlib Require Import ZArith QArith Qminmax Qround Qabs Lia Lqa.
From Stdlib Require Import Ascii DecimalString DecimalPos DecimalZ.
From stdpp Require Import gmap strings list.

Set Warnings "-register-all".
#[local] Open Scope Z_scope.

(** ** Python values *)

(** The floats that are no numbers. *)
Inductive notfinite : Type :=
| PosInf
| NegInf
| NaN.

(** What [json.loads] can return, and what the settings dictionaries hold.
    [VFloat] is a finite float; [json.loads] gives [inf] for [1e400] and
    reads [Infinity], [-Infinity] and [NaN]. *)
Inductive value : Type :=
| VNone
| VBool (b : bool)
| VInt (z : Z)
| VFloat (q : Q)
| VNotFinite (x : notfinite)
| VStr (s : string)
| VList (l : list value)
| VDict (m : gmap string value).

Inductive exn : Type :=
| KeyError
| TypeError
| OSError
| JSONDecodeError
| OverflowError.

(** ** Binary64 arithmetic *)

(** [2 ** k] *)
Definition pow2 (k : Z) : Q :=
  if 0 <=? k then inject_Z (2 ^ k) else 1 # Z.to_pos (2 ^ (- k)).

(** The exponent of the binade of [x]: [2 ** ilog2 x <= |x| < 2 ** (ilog2 x + 1)]. *)
Definition ilog2 (x : Q) : Z :=
  let k := Z.log2 (Z.abs (Qnum x)) - Z.log2 (Z.pos (Qden x)) in
  if Qle_bool (pow2 k) (Qabs x) then k else k - 1.

(** To the nearest integer, a tie to the even one. *)
Definition rne (y : Q) : Z :=
  let f := Qfloor y in
  match (y - inject_Z f ?= 1 # 2)%Q with
  | Lt => f
  | Gt => f + 1
  | Eq => if Z.even f then f else f + 1
  end.

(** Rounding to binary64, 53 bits down to the subnormals, with the exponent
    not bounded above. *)
Definition fl (x : Q) : Q :=
  if Qeq_bool x 0 then 0%Q
  else
    let e := Z.max (ilog2 x - 52) (-1074) in
    (inject_Z (rne (x / pow2 e)) * pow2 e)%Q.

(** A float, finite or not. *)
Inductive pyfloat : Type :=
| Finite (q : Q)
| NotFinite (x : notfinite).

(** The float a real result is stored as: [inf] from [2 ** 1024] on. *)
Definition round64 (x : Q) : pyfloat :=
  let y := fl x in
  if Qle_bool (inject_Z (2 ^ 1024)) (Qabs y)
  then NotFinite (if Qle_bool 0 y then PosInf else NegInf)
  else Finite y.

(** [a + b] on floats. *)
Definition fadd (a b : pyfloat) : pyfloat :=
  match a, b with
  | Finite x, Finite y => round64 (x + y)
  | NotFinite NaN, _ | _, NotFinite NaN => NotFinite NaN
  | NotFinite PosInf, NotFinite NegInf
  | NotFinite NegInf, NotFinite PosInf => NotFinite NaN
  | NotFinite i, _ | _, NotFinite i => NotFinite i
  end.

Definition negate (i : notfinite) : notfinite :=
  match i with
  | PosInf => NegInf
  | NegInf => PosInf
  | NaN => NaN
  end.

(** The sign of [i * x] for a finite [x]; [inf * 0] is [nan]. *)
Definition times_sign (i : notfinite) (x : Q) : notfinite :=
  match (x ?= 0)%Q with
  | Gt => i
  | Lt => negate i
  | Eq => NaN
  end.

(** [a * b] on floats. *)
Definition fmul (a b : pyfloat) : pyfloat :=
  match a, b with
  | Finite x, Finite y => round64 (x * y)
  | NotFinite i, Finite y => NotFinite (times_sign i y)
  | Finite x, NotFinite i => NotFinite (times_sign i x)
  | NotFinite NaN, _ | _, NotFinite NaN => NotFinite NaN
  | NotFinite i, NotFinite PosInf => NotFinite i
  | NotFinite i, NotFinite NegInf => NotFinite (negate i)
  end.

(** The float of an int, as every mixed operation takes it: exact up to
    [2 ** 53], rounded beyond, [OverflowError] where it would be [inf]. *)
Definition int_to_float (z : Z) : exn + Q :=
  if Z.abs z <=? 2 ^ 53 then inr (inject_Z z)
  else match round64 (inject_Z z) with
       | Finite y => inr y
       | NotFinite _ => inl OverflowError
       end.

Definition value_of_float (f : pyfloat) : value :=
  match f with
  | Finite q => VFloat q
  | NotFinite x => VNotFinite x
  end.

(** [d[k]]: only a dict can be subscripted by a string key. *)
Definition getitem (d : value) (k : string) : exn + value :=
  match d with
  | VDict m => match m !! k with
               | Some v => inr v
               | None => inl KeyError
               end
  | _ => inl TypeError
  end.

(** [{**d, **v}]: [v] must be a mapping, and its entries win. *)
Definition dict_merge (d : gmap string value) (v : value) : exn + value :=
  match v with
  | VDict m => inr (VDict (m ∪ d))
  | _ => inl TypeError
  end.

Fixpoint str_repeat (s : string) (n : nat) : string :=
  match n with
  | O => EmptyString
  | S n' => String.append s (str_repeat s n')
  end.

(** [v * n] for an int [n]: ints multiply exactly, a float multiplies the
    float of [n], sequences repeat. *)
Definition mul_int (v : value) (n : Z) : exn + value :=
  match v with
  | VInt z => inr (VInt (z * n))
  | VBool b => inr (VInt (Z.b2z b * n))
  | VFloat q =>
      match int_to_float n with
      | inl e => inl e
      | inr fn => inr (value_of_float (fmul (Finite q) (Finite fn)))
      end
  | VNotFinite x =>
      match int_to_float n with
      | inl e => inl e
      | inr fn => inr (value_of_float (fmul (NotFinite x) (Finite fn)))
      end
  | VStr s => inr (VStr (str_repeat s (Z.to_nat n)))
  | VList l => inr (VList (concat (replicate (Z.to_nat n) l)))
  | VNone | VDict _ => inl TypeError
  end.

(** [t + v] for a float [t]: only numbers can be added to a float, an int
    as the float it converts to. *)
Definition float_add (t : Q) (v : value) : exn + pyfloat :=
  match v with
  | VInt z =>
      match int_to_float z with
      | inl e => inl e
      | inr f => inr (fadd (Finite t) (Finite f))
      end
  | VBool b => inr (fadd (Finite t) (Finite (inject_Z (Z.b2z b))))
  | VFloat q => inr (fadd (Finite t) (Finite q))
  | VNotFinite x => inr (fadd (Finite t) (NotFinite x))
  | _ => inl TypeError
  end.

(** [int(x)] for a float [x]: truncation toward zero. *)
Definition py_int (x : Q) : Z := Z.quot (Qnum x) (Z.pos (Qden x)).

Definition is_work (phase : string) : bool := String.eqb phase "work".

(** What the user is told, in either front-end. *)
Inductive event : Type :=
| Beep                 (* app: [beep()] *)
| NotifyStageComplete  (* tray: [notify('Этап завершён', ...)] *)
| NotifyFocus          (* tray: [notify('Фокус', ...)] *)
| NotifyRest.          (* tray: [notify('Отдых', ...)] *)

(** What can happen to a timer: the three buttons or menu items, and a pass
    of the polling loop. Each carries the clock readings it consumes. *)
Inductive op : Type :=
| Start (now : Q)
| Pause
| Reset
| Tick (now now' : Q).

(** ** The settings file *)

Inductive text : Type :=
| Malformed
| Json (v : value).

Definition json_loads (t : text) : exn + value :=
  match t with
  | Malformed => inl JSONDecodeError
  | Json v => inr v
  end.

Definition json_dumps (v : value) : text := Json v.

(** The part of the file system the code touches: whether
    [CONFIG_DIR.mkdir(parents=True, exist_ok=True)] succeeds, the contents of
    [CONFIG_PATH] if it exists, whether it can be read, and what a
    [write_text] does. [write_text] opens the file for writing, which
    creates or empties it, and then writes: a write that fails after the
    open leaves an empty file, which does not parse. *)
Inductive write_mode : Type :=
| WriteOk          (* the text is written *)
| WriteDenied      (* the open fails: nothing is touched *)
| WriteTruncates.  (* the open truncates, then the write fails *)

Definition write_mode_of_bool (b : bool) : write_mode :=
  if b then WriteOk else WriteDenied.

Coercion write_mode_of_bool : bool >-> write_mode.

Record fs : Type := mkFs {
  can_mkdir : bool;
  config : option text;
  can_read : bool;
  can_write : write_mode
}.

(** Code that runs against the file system and may raise. *)
Definition io (A : Type) : Type := fs -> (exn + A) * fs.

Definition ret {A} (a : A) : io A := fun f => (inr a, f).

Definition raise {A} (e : exn) : io A := fun f => (inl e, f).

Definition bind {A B} (c : io A) (k : A -> io B) : io B :=
  fun f => match c f with
           | (inr a, f') => k a f'
           | (inl e, f') => (inl e, f')
           end.

Definition lift {A} (r : exn + A) : io A :=
  match r with
  | inr a => ret a
  | inl e => raise e
  end.

(** [try: body except Exception: handler] *)
Definition try_except {A} (body handler : io A) : io A :=
  fun f => match body f with
           | (inr a, f') => (inr a, f')
           | (inl _, f') => handler f'
           end.

Notation "x <- c ;; k" := (bind c (fun x => k))
  (at level 100, c at next level, right associativity).
Notation "c ;;; k" := (bind c (fun _ => k))
  (at level 100, right associativity).

Definition mkdir : io unit :=
  fun f => if can_mkdir f then (inr tt, f) else (inl OSError, f).

Definition exists_ : io bool :=
  fun f => (inr (bool_decide (is_Some (config f))), f).

Definition write_text (t : text) : io unit :=
  fun f => match can_write f with
           | WriteOk =>
               (inr tt, mkFs (can_mkdir f) (Some t) (can_read f) (can_write f))
           | WriteDenied => (inl OSError, f)
           | WriteTruncates =>
               (inl OSError,
                mkFs (can_mkdir f) (Some Malformed) (can_read f) (can_write f))
           end.

Definition read_text : io text :=
  fun f => match config f with
           | Some t => if can_read f then (inr t, f) else (inl OSError, f)
           | None => (inl OSError, f)
           end.

(** ** The web front-end, [bin/focusflow_app.py] *)

Module App.

Definition DEFAULTS : gmap string value :=
  <["work_minutes" := VInt 25]>
    (<["break_minutes" := VInt 5]>
       (<["theme" := VStr "dark"]> ∅)).

Definition load_config : io value :=
  try_except
    (mkdir ;;;
     present <- exists_ ;;
     if negb present
     then write_text (json_dumps (VDict DEFAULTS)) ;;;
          ret (VDict DEFAULTS)
     else t <- read_text ;;
          v <- lift (json_loads t) ;;
          lift (dict_merge DEFAULTS v))
    (ret (VDict DEFAULTS)).

Definition save_config (cfg : value) : io unit :=
  try_except (write_text (json_dumps cfg)) (ret tt).

(** The fields of [st.session_state]. The two durations come out of
    [st.number_input(..., step=1)], so they are ints; see [from_widgets]
    for their bounds. *)
Record session : Type := mkSession {
  work_minutes : Z;
  break_minutes : Z;
  theme : string;
  phase : string;
  running : bool;
  end_time : Q
}.

(** The [if 'initialized' not in st.session_state] block, for settings that
    have come out of the widgets. *)
Definition init (w b : Z) (th : string) : session :=
  mkSession w b th "work" false 0%Q.

Definition set_phase (p : string) (s : session) : session :=
  mkSession (work_minutes s) (break_minutes s) (theme s) p (running s) (end_time s).

Definition set_running (r : bool) (s : session) : session :=
  mkSession (work_minutes s) (break_minutes s) (theme s) (phase s) r (end_time s).

Definition set_end_time (e : Q) (s : session) : session :=
  mkSession (work_minutes s) (break_minutes s) (theme s) (phase s) (running s) e.

(** On every run the script assigns both durations from
    [st.number_input(min_value=1, max_value=180, ...)] and
    [st.number_input(min_value=1, max_value=60, ...)] before it comes to the
    buttons and the loop: the sessions that [start_timer] and the loop see
    are these. *)
Definition from_widgets (s : session) : Prop :=
  1 <= work_minutes s <= 180 /\ 1 <= break_minutes s <= 60.

(** [start_timer()], with [now] the value of its [time.time()]. The sum
    raises before anything is assigned when the int does not fit a float,
    which no duration [from_widgets] does. *)
Definition start_timer (now : Q) (s : session) : session :=
  let minutes := if is_work (phase s) then work_minutes s else break_minutes s in
  match float_add now (VInt (minutes * 60)) with
  | inl _ => s
  | inr (Finite e) => set_running true (set_end_time e s)
  | inr (NotFinite _) => set_running true s
  end.

Definition pause_timer (s : session) : session := set_running false s.

Definition reset_timer (s : session) : session :=
  set_end_time 0%Q (set_phase "work" (set_running false s)).

(** One pass of the [while True] loop up to [time.sleep(1)]. *)
Record pass : Type := mkPass {
  remaining : Z;          (* the local [remaining] *)
  shown : Z;              (* the seconds handed to [format_mmss] *)
  emitted : list event;
  after : session
}.

Definition remaining_at (now : Q) (s : session) : Z :=
  if running s then Z.max 0 (py_int (end_time s - now)%Q) else 0.

(** [now] is the loop's own [time.time()]; [now'] is the one [start_timer]
    makes when the phase has run out. *)
Definition tick (now now' : Q) (s : session) : pass :=
  let remaining := remaining_at now s in
  let shown :=
    if running s then remaining
    else if is_work (phase s) then work_minutes s * 60 else break_minutes s * 60 in
  if running s && (remaining <=? 0)
  then
    let s1 := if is_work (phase s) then set_phase "break" s else set_phase "work" s in
    mkPass remaining shown [Beep] (start_timer now' s1)
  else mkPass remaining shown [] s.

Definition step (s : session) (o : op) : session :=
  match o with
  | Start now => start_timer now s
  | Pause => pause_timer s
  | Reset => reset_timer s
  | Tick now now' => after (tick now now' s)
  end.

Definition run (ops : list op) (s : session) : session := fold_left step ops s.

End App.

(** ** The tray front-end, [bin/focusflow_tray.py] *)

Module Tray.

Definition defaults : gmap string value :=
  <["work_minutes" := VInt 25]>
    (<["break_minutes" := VInt 5]>
       (<["theme" := VStr "dark"]> ∅)).

Definition load_config : io value :=
  try_except
    (mkdir ;;;
     present <- exists_ ;;
     (if negb present
      then write_text (json_dumps (VDict defaults))
      else ret tt) ;;;
     t <- read_text ;;
     lift (json_loads t))
    (ret (VDict defaults)).

(** The fields of [FocusFlowTray] that the timer uses. [cfg] is whatever
    [load_config] returned. *)
Record tray : Type := mkTray {
  cfg : value;
  phase : string;
  running : bool;
  end_ts : Q
}.

(** [__init__] *)
Definition init (c : value) : tray := mkTray c "work" false 0%Q.

Definition set_phase (p : string) (s : tray) : tray :=
  mkTray (cfg s) p (running s) (end_ts s).

Definition set_running (r : bool) (s : tray) : tray :=
  mkTray (cfg s) (phase s) r (end_ts s).

Definition set_end_ts (e : Q) (s : tray) : tray :=
  mkTray (cfg s) (phase s) (running s) e.

(** A method call: the exception it raised if any, what it told the user,
    and the object as it left it. *)
Record outcome : Type := mkOutcome {
  raised : option exn;
  emitted : list event;
  after : tray
}.

(** [start], with [now] the value of its [time.time()]. Nothing has been
    assigned yet when the lookup or the arithmetic raises. *)
Definition start (now : Q) (s : tray) : outcome :=
  let key := if is_work (phase s) then "work_minutes" else "break_minutes" in
  match getitem (cfg s) key with
  | inl e => mkOutcome (Some e) [] s
  | inr minutes =>
      match mul_int minutes 60 with
      | inl e => mkOutcome (Some e) [] s
      | inr secs =>
          match float_add now secs with
          | inl e => mkOutcome (Some e) [] s
          | inr f =>
              let s' := set_running true
                          (match f with
                           | Finite e => set_end_ts e s
                           | NotFinite _ => s
                           end) in
              mkOutcome None
                [if is_work (phase s') then NotifyFocus else NotifyRest] s'
          end
      end
  end.

Definition pause (s : tray) : tray := set_running false s.

Definition reset (s : tray) : tray :=
  set_end_ts 0%Q (set_phase "work" (set_running false s)).

Record pass : Type := mkPass {
  remain : Z;              (* the local [remain] *)
  label : string * Z * Z;  (* state letter, minutes, seconds of [set_label] *)
  result : outcome
}.

Definition remain_at (now : Q) (s : tray) : Z :=
  if running s then Z.max 0 (py_int (end_ts s - now)%Q) else 0.

(** [tick], with [now] its own [time.time()] and [now'] the one [start]
    makes when the phase has run out. *)
Definition tick (now now' : Q) (s : tray) : pass :=
  let remain := remain_at now s in
  let minutes := remain / 60 in
  let seconds := remain mod 60 in
  let state := if is_work (phase s) then "F" else "B" in
  if running s && (remain <=? 0)
  then
    let s1 := set_phase (if is_work (phase s) then "break" else "work") s in
    let o := start now' s1 in
    mkPass remain (state, minutes, seconds)
      (mkOutcome (raised o) (NotifyStageComplete :: emitted o) (after o))
  else mkPass remain (state, minutes, seconds) (mkOutcome None [] s).

(** The object is left as the handler left it, also when it raised. *)
Definition step (s : tray) (o : op) : tray :=
  match o with
  | Start now => after (start now s)
  | Pause => pause s
  | Reset => reset s
  | Tick now now' => after (result (tick now now' s))
  end.

Definition run (ops : list op) (s : tray) : tray := fold_left step ops s.

(** [c] holds the durations [w] and [b] as ints, as the settings record of
    the specification does. *)
Definition configured (c : value) (w b : Z) : Prop :=
  getitem c "work_minutes" = inr (VInt w) /\
  getitem c "break_minutes" = inr (VInt b).

(** The seconds of both durations are below [2 ** 52] in size. *)
Definition in_range (w b : Z) : Prop :=
  Z.abs (w * 60) < 2 ^ 52 /\ Z.abs (b * 60) < 2 ^ 52.

End Tray.

(** ** What the front-ends show *)

(** [str(n)] for an int. *)
Definition str_of_int (n : Z) : string := NilZero.string_of_int (Z.to_int n).

(** [f"{n:02d}"]: the decimal digits, a sign included, padded with a zero on
    the left up to two characters. *)
Definition fmt_02d (n : Z) : string :=
  let s := str_of_int n in
  if (String.length s <? 2)%nat then "0" +:+ s else s.

Module AppScript.

(** [format_mmss] *)
Definition format_mmss (seconds_left : Z) : string :=
  let m := seconds_left / 60 in
  let s := seconds_left mod 60 in
  fmt_02d m +:+ ":" +:+ fmt_02d s.

(** What the loop puts in the timer [div] on a pass. *)
Definition display (p : App.pass) : string := format_mmss (App.shown p).

(** What the top of the script can raise: what [load_config] and the timer
    can, and two more. *)
Inductive script_exn : Type :=
| Exn (e : exn)
| AttributeError
| ValueError.

(** [d.get(k, dflt)] *)
Definition dict_get (d : value) (k : string) (dflt : value) : script_exn + value :=
  match d with
  | VDict m => inr (default dflt (m !! k))
  | _ => inl AttributeError
  end.

Section Startup.

(** [int(s)] for a [str]: its value, or [None] where Python raises
    [ValueError]. *)
Variable int_of_str : string -> option Z.

(** [int(v)] *)
Definition int_of (v : value) : script_exn + Z :=
  match v with
  | VInt z => inr z
  | VBool b => inr (Z.b2z b)
  | VFloat q => inr (py_int q)
  | VNotFinite NaN => inl ValueError
  | VNotFinite _ => inl (Exn OverflowError)
  | VStr s => match int_of_str s with
              | Some z => inr z
              | None => inl ValueError
              end
  | VNone | VList _ | VDict _ => inl (Exn TypeError)
  end.

(** The three settings of the [if 'initialized' not in st.session_state]
    block, in the order the block computes them; the timer fields it sets
    next are those of [App.init]. *)
Definition initial_settings (cfg : value) : script_exn + (Z * Z * value) :=
  match dict_get cfg "work_minutes" (VInt 25) with
  | inl e => inl e
  | inr vw =>
      match int_of vw with
      | inl e => inl e
      | inr w =>
          match dict_get cfg "break_minutes" (VInt 5) with
          | inl e => inl e
          | inr vb =>
              match int_of vb with
              | inl e => inl e
              | inr b =>
                  match dict_get cfg "theme" (VStr "dark") with
                  | inl e => inl e
                  | inr th => inr (w, b, th)
                  end
              end
          end
      end
  end.

(** [cfg = load_config()] and the block above. *)
Definition startup (f : fs) : (script_exn + (Z * Z * value)) * fs :=
  match App.load_config f with
  | (inl e, f') => (inl (Exn e), f')
  | (inr cfg, f') => (initial_settings cfg, f')
  end.

End Startup.

(** The dict of the [# Persist settings] call. *)
Definition settings_dict (s : App.session) : gmap string value :=
  <["work_minutes" := VInt (App.work_minutes s)]>
    (<["break_minutes" := VInt (App.break_minutes s)]>
       (<["theme" := VStr (App.theme s)]> ∅)).

(** [save_config({...})] as the script calls it on every run. *)
Definition persist (s : App.session) : io unit :=
  App.save_config (VDict (settings_dict s)).

End AppScript.

Module TrayScript.

(** The text [tick] hands to [set_label]. *)
Definition label_text (l : string * Z * Z) : string :=
  let '(state, minutes, seconds) := l in
  state +:+ " " +:+ fmt_02d minutes +:+ ":" +:+ fmt_02d seconds.

(** [FocusFlowTray()] up to the timer fields: [load_config()], then
    [__init__]'s assignments. *)
Definition boot (f : fs) : (exn + Tray.tray) * fs :=
  match Tray.load_config f with
  | (inl e, f') => (inl e, f')
  | (inr c, f') => (inr (Tray.init c), f')
  end.

End TrayScript.

(** A run of ops that are all passes of the polling loop. *)
Definition only_ticks (ops : list op) : Prop :=
  Forall (fun o => match o with Tick _ _ => True | _ => False end) ops.

(** A reading of the clock: seconds since the epoch, below [2 ** 52]. *)
Definition clock (t : Q) : Prop := (0 <= t)%Q /\ (t < inject_Z (2 ^ 52))%Q.

(** ** The state space of the specification *)

(** Idle-work, Running-work, Idle-break, Running-break, as the pair of the
    [phase] and [running] fields. *)
Definition state_space : list (string * bool) :=
  [("work", false); ("work", true); ("break", false); ("break", true)].

(** ** Rounding *)

Lemma pow2_nonneg (k : Z) : 0 <= k -> pow2 k = inject_Z (2 ^ k).
Proof.
  intros H. unfold pow2. destruct (Z.leb_spec 0 k); [reflexivity | lia].
Qed.

Lemma pow2_pos (k : Z) : (0 < pow2 k)%Q.
Proof.
  unfold pow2. destruct (Z.leb_spec 0 k).
  - unfold Qlt. simpl. pose proof (Z.pow_pos_nonneg 2 k). lia.
  - reflexivity.
Qed.

Lemma pow2_le_one (k : Z) : k <= 0 -> (pow2 k <= 1)%Q.
Proof.
  intros H. unfold pow2. destruct (Z.leb_spec 0 k).
  - replace k with 0 by lia. discriminate.
  - unfold Qle. simpl. lia.
Qed.

Lemma rne_error (y : Q) : (Qabs (inject_Z (rne y) - y) <= 1 # 2)%Q.
Proof.
  pose proof (Qfloor_le y) as Hl. pose proof (Qlt_floor y) as Hu.
  unfold rne. set (f := Qfloor y) in *.
  assert (Hu' : (y < inject_Z f + 1)%Q).
  { rewrite inject_Z_plus in Hu. exact Hu. }
  apply Qabs_Qle_condition.
  destruct (Qcompare_spec (y - inject_Z f) (1 # 2)) as [E | L | G].
  - destruct (Z.even f);
      [| rewrite inject_Z_plus; change (inject_Z 1) with 1%Q]; split; lra.
  - split; lra.
  - rewrite inject_Z_plus. change (inject_Z 1) with 1%Q. split; lra.
Qed.

Lemma ilog2_le_52 (x : Q) :
  (Qabs x < inject_Z (2 ^ 53))%Q -> ilog2 x <= 52.
Proof.
  intros H. unfold ilog2. destruct x as [xn xd].
  cbn [Qnum Qden]. set (n := Z.abs xn). set (d := Z.pos xd).
  assert (Hn : n < 2 ^ 53 * d).
  { unfold Qlt, Qabs in H. cbn [Qnum Qden inject_Z] in H. subst n d. lia. }
  destruct (Qle_bool (pow2 (Z.log2 n - Z.log2 d)) (Qabs (xn # xd))) eqn:B.
  - destruct (Z.le_gt_cases (Z.log2 n - Z.log2 d) 52) as [L | G]; [exact L |].
    exfalso. apply Qle_bool_iff in B.
    assert (P : (inject_Z (2 ^ 53) <= pow2 (Z.log2 n - Z.log2 d))%Q).
    { rewrite pow2_nonneg by lia. rewrite <- Zle_Qle.
      apply Z.pow_le_mono_r; lia. }
    lra.
  - assert (Z.log2 n - Z.log2 d <= 53); [| lia].
    destruct (Z.eq_dec n 0) as [E0 | Nz].
    { rewrite E0. change (Z.log2 0) with 0.
      pose proof (Z.log2_nonneg d). lia. }
    assert (0 < n) by (subst n; lia).
    assert (Hd : d < 2 ^ (Z.log2 d + 1)).
    { apply Z.log2_spec. subst d. lia. }
    assert (n < 2 ^ (Z.log2 d + 54)).
    { replace (Z.log2 d + 54) with (53 + (Z.log2 d + 1)) by lia.
      rewrite Z.pow_add_r by (pose proof (Z.log2_nonneg d); lia).
      nia. }
    assert (Z.log2 n < Z.log2 d + 54).
    { apply Z.log2_lt_pow2; assumption. }
    lia.
Qed.

Lemma rne_inject_Z (m : Z) : rne (inject_Z m) = m.
Proof.
  unfold rne. rewrite Qfloor_Z.
  assert (H : (inject_Z m - inject_Z m < 1 # 2)%Q) by lra.
  rewrite Qlt_alt in H. rewrite H. reflexivity.
Qed.

Lemma rne_Qeq (x y : Q) : (x == y)%Q -> rne x = rne y.
Proof.
  intros E. unfold rne. rewrite (Qfloor_comp _ _ E).
  assert (H : (x - inject_Z (Qfloor y) ?= 1 # 2)%Q =
              (y - inject_Z (Qfloor y) ?= 1 # 2)%Q)
    by (apply Qcompare_comp; [rewrite E |]; reflexivity).
  rewrite H. reflexivity.
Qed.

Lemma pow2_inverse (e : Z) : e <= 0 -> (inject_Z (2 ^ (- e)) * pow2 e == 1)%Q.
Proof.
  intros H. unfold pow2. destruct (Z.leb_spec 0 e).
  - replace e with 0 by lia. reflexivity.
  - pose proof (Z.pow_pos_nonneg 2 (- e)).
    unfold Qeq, Qmult, inject_Z. cbn [Qnum Qden].
    rewrite Pos.mul_1_l, Z2Pos.id by lia. lia.
Qed.

Lemma ilog2_inject_Z (z : Z) : z <> 0 -> ilog2 (inject_Z z) = Z.log2 (Z.abs z).
Proof.
  intros H. unfold ilog2.
  change (Qnum (inject_Z z)) with z. change (Qden (inject_Z z)) with 1%positive.
  change (Z.log2 1) with 0. rewrite Z.sub_0_r.
  assert (L : 2 ^ Z.log2 (Z.abs z) <= Z.abs z) by (apply Z.log2_spec; lia).
  assert (B : Qle_bool (pow2 (Z.log2 (Z.abs z))) (Qabs (inject_Z z)) = true).
  { apply Qle_bool_iff. rewrite pow2_nonneg by apply Z.log2_nonneg.
    unfold Qle, Qabs. cbn [inject_Z Qnum Qden]. lia. }
  rewrite B. reflexivity.
Qed.

(** An int of size up to [2 ** 53] is a float: rounding leaves it as it
    is. *)
Lemma fl_inject_Z (z : Z) :
  Z.abs z <= 2 ^ 53 -> (fl (inject_Z z) == inject_Z z)%Q.
Proof.
  intros H. unfold fl.
  destruct (Qeq_bool (inject_Z z) 0) eqn:E.
  - apply Qeq_bool_iff in E. symmetry. exact E.
  - assert (Nz : z <> 0) by (intros ->; discriminate).
    rewrite ilog2_inject_Z by exact Nz.
    assert (K : 0 <= Z.log2 (Z.abs z) <= 53).
    { split; [apply Z.log2_nonneg |].
      change 53 with (Z.log2 (2 ^ 53)). apply Z.log2_le_mono, H. }
    destruct (Z.eq_dec (Z.log2 (Z.abs z)) 53) as [E53 | N53].
    + assert (A : Z.abs z = 2 ^ 53).
      { assert (2 ^ 53 <= Z.abs z); [| lia].
        rewrite <- E53. apply Z.log2_spec. lia. }
      rewrite E53.
      destruct (Z.abs_spec z) as [[_ Ez] | [_ Ez]]; rewrite Ez in A.
      * rewrite A. reflexivity.
      * replace z with (- 2 ^ 53) by lia. reflexivity.
    + set (e := Z.max (Z.log2 (Z.abs z) - 52) (-1074)).
      assert (He : e <= 0) by (subst e; lia).
      pose proof (pow2_inverse e He) as I. pose proof (pow2_pos e) as P.
      assert (X : (inject_Z z / pow2 e == inject_Z (z * 2 ^ (- e)))%Q).
      { rewrite inject_Z_mult.
        transitivity (inject_Z z * (inject_Z (2 ^ (- e)) * pow2 e) / pow2 e)%Q.
        - rewrite I. field. lra.
        - field. lra. }
      rewrite (rne_Qeq _ _ X), rne_inject_Z, inject_Z_mult.
      rewrite <- Qmult_assoc, I. ring.
Qed.

(** The float of an int is the int rounded, whichever way [int_to_float]
    comes to it. *)
Lemma int_to_float_is_rounding (z : Z) (q : Q) :
  int_to_float z = inr q -> (q == fl (inject_Z z))%Q.
Proof.
  unfold int_to_float. destruct (Z.leb_spec (Z.abs z) (2 ^ 53)) as [H | H].
  - intros [= <-]. symmetry. apply fl_inject_Z, H.
  - unfold round64. destruct (Qle_bool _ _); [discriminate |].
    intros [= <-]. reflexivity.
Qed.

(** Below [2 ** 53] a float is within half a unit of what it rounds. *)
Lemma fl_error (x : Q) :
  (Qabs x < inject_Z (2 ^ 53))%Q -> (Qabs (fl x - x) <= 1 # 2)%Q.
Proof.
  intros H. unfold fl.
  destruct (Qeq_bool x 0) eqn:Z0.
  - apply Qeq_bool_eq in Z0. rewrite Z0. discriminate.
  - set (e := Z.max (ilog2 x - 52) (-1074)).
    assert (He : e <= 0) by (pose proof (ilog2_le_52 x H); lia).
    pose proof (pow2_pos e) as Hp. pose proof (pow2_le_one e He) as H1.
    pose proof (rne_error (x / pow2 e)) as R.
    set (m := inject_Z (rne (x / pow2 e))) in *.
    assert (E : (m * pow2 e - x == (m - x / pow2 e) * pow2 e)%Q).
    { field. lra. }
    rewrite E, Qabs_Qmult.
    rewrite (Qabs_pos (pow2 e)) by lra.
    pose proof (Qabs_nonneg (m - x / pow2 e)) as A.
    set (a := Qabs (m - x / pow2 e)) in *.
    assert (L : (pow2 e * a <= 1 * a)%Q)
      by (apply Qmult_le_compat_r; lra).
    rewrite (Qmult_comm a). set (t := (pow2 e * a)%Q) in *. lra.
Qed.

Lemma fl_finite (x : Q) :
  (Qabs x < inject_Z (2 ^ 53))%Q -> (Qabs (fl x) < inject_Z (2 ^ 54))%Q.
Proof.
  intros H. pose proof (fl_error x H) as E.
  apply Qabs_Qle_condition in E.
  apply Qabs_Qlt_condition in H.
  apply Qabs_Qlt_condition.
  change (inject_Z (2 ^ 54)) with (2 * inject_Z (2 ^ 53))%Q.
  set (c := inject_Z (2 ^ 53)) in *.
  assert (1 <= c)%Q by (subst c; discriminate).
  split; lra.
Qed.

(** A clock reading plus the seconds of a duration in range: the sum is a
    finite float within half a second of the exact sum. *)
Lemma clock_sum_small (t : Q) (n : Z) :
  clock t -> Z.abs n < 2 ^ 52 ->
  (Qabs (t + inject_Z n) < inject_Z (2 ^ 53))%Q.
Proof.
  intros [H0 H1] Hn.
  assert (A : (- inject_Z (2 ^ 52) < inject_Z n)%Q /\
              (inject_Z n < inject_Z (2 ^ 52))%Q).
  { split; [rewrite <- inject_Z_opp |]; rewrite <- Zlt_Qlt; lia. }
  change (inject_Z (2 ^ 53)) with (2 * inject_Z (2 ^ 52))%Q.
  set (c := inject_Z (2 ^ 52)) in *.
  apply Qabs_Qlt_condition. split; lra.
Qed.

Lemma round64_small (x : Q) :
  (Qabs x < inject_Z (2 ^ 53))%Q -> round64 x = Finite (fl x).
Proof.
  intros H. unfold round64.
  destruct (Qle_bool (inject_Z (2 ^ 1024)) (Qabs (fl x))) eqn:B; [| reflexivity].
  exfalso. apply Qle_bool_iff in B. pose proof (fl_finite x H) as L.
  assert (inject_Z (2 ^ 54) <= inject_Z (2 ^ 1024))%Q
    by (rewrite <- Zle_Qle; apply Z.pow_le_mono_r; lia).
  lra.
Qed.

Lemma float_add_int (t : Q) (n : Z) :
  clock t -> Z.abs n < 2 ^ 52 ->
  float_add t (VInt n) = inr (Finite (fl (t + inject_Z n))).
Proof.
  intros Ht Hn. unfold float_add, int_to_float.
  assert (L : 2 ^ 52 < 2 ^ 53) by (apply Z.pow_lt_mono_r; lia).
  destruct (Z.leb_spec (Z.abs n) (2 ^ 53)) as [_ | G]; [| lia].
  unfold fadd. rewrite round64_small by (apply clock_sum_small; assumption).
  reflexivity.
Qed.

Lemma float_add_int_close (t : Q) (n : Z) :
  clock t -> Z.abs n < 2 ^ 52 ->
  (Qabs (fl (t + inject_Z n) - (t + inject_Z n)) <= 1 # 2)%Q.
Proof.
  intros Ht Hn. apply fl_error, clock_sum_small; assumption.
Qed.

(** ** Truncation of a float to an int *)

Lemma py_int_Qeq (p q : Q) : (p == q)%Q -> py_int p = py_int q.
Proof.
  unfold Qeq, py_int. intros E.
  rewrite <- (Z.quot_mul_cancel_r (Qnum p) (Z.pos (Qden p)) (Z.pos (Qden q))) by lia.
  rewrite <- (Z.quot_mul_cancel_r (Qnum q) (Z.pos (Qden q)) (Z.pos (Qden p))) by lia.
  rewrite E. f_equal. lia.
Qed.

Lemma py_int_inject_Z (n : Z) : py_int (inject_Z n) = n.
Proof. unfold py_int. simpl. apply Z.quot_1_r. Qed.

Lemma py_int_below_one (q : Q) : (q < 1)%Q -> py_int q <= 0.
Proof.
  unfold Qlt, py_int. simpl. intros H.
  destruct (Z_lt_le_dec (Qnum q) 0) as [Hn | Hn].
  - assert (0 <= Z.quot (- Qnum q) (Z.pos (Qden q))) by (apply Z.quot_pos; lia).
    rewrite Z.quot_opp_l in * by lia. lia.
  - rewrite Z.quot_small by lia. lia.
Qed.

Lemma py_int_fraction (q : Q) : (0 < q)%Q -> (q < 1)%Q -> py_int q = 0.
Proof.
  unfold Qlt, py_int. simpl. intros H0 H1.
  apply Z.quot_small. lia.
Qed.

Lemma py_int_from_one (q : Q) : (1 <= q)%Q -> 1 <= py_int q.
Proof.
  unfold Qle, py_int. simpl. intros H.
  assert (0 < Z.quot (Qnum q) (Z.pos (Qden q))) by (apply Z.quot_str_pos; lia).
  lia.
Qed.

Lemma py_int_mono (p q : Q) : (p <= q)%Q -> py_int p <= py_int q.
Proof.
  unfold Qle, py_int. intros H.
  rewrite <- (Z.quot_mul_cancel_r (Qnum p) (Z.pos (Qden p)) (Z.pos (Qden q))) by lia.
  rewrite <- (Z.quot_mul_cancel_r (Qnum q) (Z.pos (Qden q)) (Z.pos (Qden p))) by lia.
  rewrite (Z.mul_comm (Z.pos (Qden q)) (Z.pos (Qden p))).
  apply Z.quot_le_mono; lia.
Qed.

Lemma py_int_le_self (d : Q) : (0 <= d)%Q -> (inject_Z (py_int d) <= d)%Q.
Proof.
  unfold Qle, py_int. simpl. intros H.
  rewrite Z.mul_1_r in H. rewrite Z.mul_1_r.
  rewrite Z.mul_comm. apply Z.mul_quot_le; lia.
Qed.

(** The countdown of [n] whole seconds read at the instant it was set. *)
Lemma py_int_just_set (now : Q) (n : Z) :
  py_int (now + inject_Z n - now)%Q = n.
Proof.
  rewrite (py_int_Qeq _ (inject_Z n)); [apply py_int_inject_Z | ring].
Qed.

(** ** Restarting the countdown *)

Lemma widget_seconds (s : App.session) :
  App.from_widgets s ->
  Z.abs ((if is_work (App.phase s) then App.work_minutes s
          else App.break_minutes s) * 60) < 2 ^ 52.
Proof.
  intros [Hw Hb].
  assert (10800 < 2 ^ 52) by reflexivity.
  destruct (is_work (App.phase s)); lia.
Qed.

Lemma app_start_timer_eq (now : Q) (s : App.session) :
  App.from_widgets s -> clock now ->
  App.start_timer now s =
  App.mkSession (App.work_minutes s) (App.break_minutes s) (App.theme s)
    (App.phase s) true
    (fl (now + inject_Z ((if is_work (App.phase s) then App.work_minutes s
                          else App.break_minutes s) * 60))).
Proof.
  intros Hs Hn. unfold App.start_timer.
  rewrite float_add_int by (try apply widget_seconds; assumption).
  reflexivity.
Qed.

Lemma tray_start_eq (now : Q) (s : Tray.tray) (w b : Z) :
  Tray.configured (Tray.cfg s) w b -> Tray.in_range w b -> clock now ->
  Tray.start now s =
  Tray.mkOutcome None
    [if is_work (Tray.phase s) then NotifyFocus else NotifyRest]
    (Tray.mkTray (Tray.cfg s) (Tray.phase s) true
       (fl (now + inject_Z ((if is_work (Tray.phase s) then w else b) * 60)))).
Proof.
  intros [Hw Hb] [Rw Rb] Hn. unfold Tray.start, is_work.
  destruct (String.eqb (Tray.phase s) "work") eqn:E; [rewrite Hw | rewrite Hb];
    cbn [mul_int]; rewrite float_add_int by assumption;
    cbn; rewrite E; reflexivity.
Qed.

(** The seconds left right after a start: the length of the phase, or a
    second less when the sum was rounded down. *)
Lemma py_int_just_set_float (now : Q) (n : Z) :
  clock now -> 0 < n < 2 ^ 52 ->
  let r := py_int (fl (now + inject_Z n) - now)%Q in
  r = n \/ r = n - 1.
Proof.
  intros Hc Hn r.
  pose proof (float_add_int_close now n Hc ltac:(lia)) as E.
  apply Qabs_Qle_condition in E. destruct E as [E1 E2].
  set (d := (fl (now + inject_Z n) - now)%Q) in *.
  assert (N1 : (inject_Z 1 <= inject_Z n)%Q) by (rewrite <- Zle_Qle; lia).
  change (inject_Z 1) with 1%Q in N1.
  assert (M : (inject_Z (n - 1) == inject_Z n - 1)%Q).
  { unfold Z.sub. rewrite inject_Z_plus, inject_Z_opp. reflexivity. }
  assert (L : (inject_Z (n - 1) <= d)%Q) by (subst d; lra).
  apply py_int_mono in L. rewrite py_int_inject_Z in L.
  assert (U : (inject_Z (py_int d) < inject_Z (n + 1))%Q).
  { pose proof (py_int_le_self d ltac:(subst d; lra)) as S.
    rewrite inject_Z_plus. change (inject_Z 1) with 1%Q. subst d. lra. }
  rewrite <- Zlt_Qlt in U. subst r. lia.
Qed.

Lemma app_tick_remaining (now now' : Q) (s : App.session) :
  App.remaining (App.tick now now' s) = App.remaining_at now s.
Proof.
  unfold App.tick.
  destruct (App.running s && (App.remaining_at now s <=? 0)); reflexivity.
Qed.

Lemma tray_tick_remain (now now' : Q) (s : Tray.tray) :
  Tray.remain (Tray.tick now now' s) = Tray.remain_at now s.
Proof.
  unfold Tray.tick.
  destruct (Tray.running s && (Tray.remain_at now s <=? 0)); reflexivity.
Qed.

(** C2, as amended: [start] sets the deadline to the float sum of the clock
    and the current phase's minutes times 60, within half a second of the
    exact sum, and sets [running], leaving the phase as it is; so after
    [reset] then [start] with [work_minutes = w], a tick at the same clock
    reading computes [remaining = w * 60], or [w * 60 - 1] when the sum was
    rounded down. In the app for durations from the widgets, in the tray for
    int durations in range, at a clock reading. *)
Theorem start_sets_deadline_and_runs :
  (forall (s : App.session) (now : Q),
      App.from_widgets s -> clock now ->
      let s' := App.start_timer now s in
      (App.phase s = "work" ->
       App.end_time s' = fl (now + inject_Z (App.work_minutes s * 60)) /\
       (Qabs (App.end_time s' - (now + inject_Z (App.work_minutes s * 60)))
        <= 1 # 2)%Q) /\
      (App.phase s = "break" ->
       App.end_time s' = fl (now + inject_Z (App.break_minutes s * 60)) /\
       (Qabs (App.end_time s' - (now + inject_Z (App.break_minutes s * 60)))
        <= 1 # 2)%Q) /\
      App.running s' = true /\
      App.phase s' = App.phase s) /\
  (forall (s : App.session) (now now' : Q) (w : Z),
      App.from_widgets s -> clock now -> App.work_minutes s = w ->
      let r := App.remaining
                 (App.tick now now' (App.start_timer now (App.reset_timer s))) in
      (r = w * 60 \/ r = w * 60 - 1) /\
      ((fl (now + inject_Z (w * 60)) == now + inject_Z (w * 60))%Q -> r = w * 60)) /\
  (forall (s : Tray.tray) (now : Q) (w b : Z),
      Tray.configured (Tray.cfg s) w b -> Tray.in_range w b -> clock now ->
      let o := Tray.start now s in
      Tray.raised o = None /\
      (Tray.phase s = "work" ->
       Tray.end_ts (Tray.after o) = fl (now + inject_Z (w * 60)) /\
       (Qabs (Tray.end_ts (Tray.after o) - (now + inject_Z (w * 60))) <= 1 # 2)%Q) /\
      (Tray.phase s = "break" ->
       Tray.end_ts (Tray.after o) = fl (now + inject_Z (b * 60)) /\
       (Qabs (Tray.end_ts (Tray.after o) - (now + inject_Z (b * 60))) <= 1 # 2)%Q) /\
      Tray.running (Tray.after o) = true /\
      Tray.phase (Tray.after o) = Tray.phase s) /\
  (forall (s : Tray.tray) (now now' : Q) (w b : Z),
      0 < w -> Tray.configured (Tray.cfg s) w b -> Tray.in_range w b ->
      clock now ->
      let r := Tray.remain
                 (Tray.tick now now' (Tray.after (Tray.start now (Tray.reset s)))) in
      (r = w * 60 \/ r = w * 60 - 1) /\
      ((fl (now + inject_Z (w * 60)) == now + inject_Z (w * 60))%Q -> r = w * 60)).
Proof.
  split; [| split; [| split]].
  - intros s now Hs Hn s'. subst s'.
    rewrite (app_start_timer_eq now s Hs Hn). simpl.
    destruct Hs as [Hw Hb]. assert (10800 < 2 ^ 52) by reflexivity.
    split; [| split; [| split; reflexivity]]; intros E; rewrite E.
    + change (is_work "work") with true. cbv iota.
      split; [reflexivity | apply float_add_int_close; [assumption | lia]].
    + change (is_work "break") with false. cbv iota.
      split; [reflexivity | apply float_add_int_close; [assumption | lia]].
  - intros s now now' w Hs Hn E r. subst r.
    assert (Hr : App.from_widgets (App.reset_timer s)) by exact Hs.
    rewrite app_tick_remaining, (app_start_timer_eq now _ Hr Hn).
    unfold App.remaining_at. simpl. rewrite E.
    assert (Hw : 0 < w * 60 < 2 ^ 52).
    { destruct Hs as [Hw _]. assert (10800 < 2 ^ 52) by reflexivity. lia. }
    split.
    + pose proof (py_int_just_set_float now (w * 60) Hn Hw) as J. simpl in J. lia.
    + intros X.
      rewrite (py_int_Qeq _ (now + inject_Z (w * 60) - now)%Q) by (rewrite X; reflexivity).
      rewrite py_int_just_set. lia.
  - intros s now w b Hc Hr Hn o. subst o.
    rewrite (tray_start_eq now s w b Hc Hr Hn). simpl.
    destruct Hr as [Rw Rb].
    split; [reflexivity |].
    split; [| split; [| split; reflexivity]]; intros E; rewrite E.
    + change (is_work "work") with true. cbv iota.
      split; [reflexivity | apply float_add_int_close; assumption].
    + change (is_work "break") with false. cbv iota.
      split; [reflexivity | apply float_add_int_close; assumption].
  - intros s now now' w b Hw Hc Hr Hn r. subst r.
    rewrite (tray_start_eq now (Tray.reset s) w b) by assumption.
    rewrite tray_tick_remain. unfold Tray.remain_at. simpl.
    assert (Hw' : 0 < w * 60 < 2 ^ 52) by (destruct Hr as [Rw _]; lia).
    split.
    + pose proof (py_int_just_set_float now (w * 60) Hn Hw') as J. simpl in J. lia.
    + intros X.
      rewrite (py_int_Qeq _ (now + inject_Z (w * 60) - now)%Q) by (rewrite X; reflexivity).
      rewrite py_int_just_set. lia.
Qed.

(** C2 as first stated has the tick right after the start compute
    [w * 60], and has [start] set the deadline from every state. Started at
    the clock reading 2147483047.6976788 with 25 minutes, the deadline is
    stored as 2147484547.6976786 and the tick computes 1499; and a tray
    whose file says [10 ** 400] work minutes raises [OverflowError] in
    [start] and stays idle. *)
Lemma start_then_tick_loses_a_second :
  let now := (9007196736890565 # 4194304)%Q in
  let s := App.start_timer now (App.reset_timer (App.init 25 5 "dark")) in
  let t := Tray.init (VDict {["work_minutes" := VInt (10 ^ 400)]}) in
  ((App.end_time s == 2251800757086641 # 1048576)%Q /\
   App.remaining (App.tick now now s) = 1499 /\
   25 * 60 = 1500) /\
  (Tray.raised (Tray.start now t) = Some OverflowError /\
   Tray.running (Tray.after (Tray.start now t)) = false).
Proof.
  vm_compute. repeat split.
Qed.

(** ** Reset and pause *)

(** C6: [reset] takes every state to the initial one: not running, phase
    [work], deadline zero; the settings stay. In both front-ends. *)
Theorem reset_is_unconditional :
  (forall s : App.session,
      let s' := App.reset_timer s in
      App.running s' = false /\ App.phase s' = "work" /\ App.end_time s' = 0%Q /\
      s' = App.init (App.work_minutes s) (App.break_minutes s) (App.theme s)) /\
  (forall s : Tray.tray,
      let s' := Tray.reset s in
      Tray.running s' = false /\ Tray.phase s' = "work" /\ Tray.end_ts s' = 0%Q /\
      s' = Tray.init (Tray.cfg s)).
Proof.
  split; intros s; repeat split.
Qed.

(** C7: [pause] clears [running] and changes nothing else, so pausing twice
    equals pausing once, and pausing an idle timer changes nothing. In both
    front-ends. *)
Theorem pause_is_idempotent_and_frames :
  (forall s : App.session,
      App.pause_timer s =
      App.mkSession (App.work_minutes s) (App.break_minutes s) (App.theme s)
        (App.phase s) false (App.end_time s) /\
      App.pause_timer (App.pause_timer s) = App.pause_timer s /\
      (App.running s = false -> App.pause_timer s = s)) /\
  (forall s : Tray.tray,
      Tray.pause s =
      Tray.mkTray (Tray.cfg s) (Tray.phase s) false (Tray.end_ts s) /\
      Tray.pause (Tray.pause s) = Tray.pause s /\
      (Tray.running s = false -> Tray.pause s = s)).
Proof.
  split; intros s; (split; [reflexivity | split; [reflexivity |]]);
    destruct s; simpl; intros ->; reflexivity.
Qed.

(** ** A pass of the polling loop *)

Lemma app_tick_idle (now now' : Q) (s : App.session) :
  App.running s = false ->
  App.tick now now' s =
  App.mkPass 0
    (if is_work (App.phase s) then App.work_minutes s * 60
     else App.break_minutes s * 60) [] s.
Proof.
  intros H. unfold App.tick, App.remaining_at. rewrite H. reflexivity.
Qed.

Lemma tray_tick_idle (now now' : Q) (s : Tray.tray) :
  Tray.running s = false ->
  Tray.tick now now' s =
  Tray.mkPass 0 (if is_work (Tray.phase s) then "F" else "B", 0, 0)
    (Tray.mkOutcome None [] s).
Proof.
  intros H. unfold Tray.tick, Tray.remain_at. rewrite H. reflexivity.
Qed.

(** The expiry branch, with the restart reading the clock at [now']. *)
Lemma app_tick_expired (now now' : Q) (s : App.session) :
  App.running s = true -> App.remaining_at now s <= 0 ->
  App.tick now now' s =
  App.mkPass (App.remaining_at now s) (App.remaining_at now s) [Beep]
    (App.start_timer now'
       (App.set_phase (if is_work (App.phase s) then "break" else "work") s)).
Proof.
  intros Hr Hz. unfold App.tick. rewrite Hr.
  apply Z.leb_le in Hz. rewrite Hz. simpl.
  destruct (is_work (App.phase s)); reflexivity.
Qed.

Lemma tray_tick_expired (now now' : Q) (s : Tray.tray) :
  Tray.running s = true -> Tray.remain_at now s <= 0 ->
  let s1 := Tray.set_phase (if is_work (Tray.phase s) then "break" else "work") s in
  let o := Tray.start now' s1 in
  Tray.tick now now' s =
  Tray.mkPass (Tray.remain_at now s)
    (if is_work (Tray.phase s) then "F" else "B",
     Tray.remain_at now s / 60, Tray.remain_at now s mod 60)
    (Tray.mkOutcome (Tray.raised o) (NotifyStageComplete :: Tray.emitted o)
       (Tray.after o)).
Proof.
  intros Hr Hz. unfold Tray.tick. rewrite Hr.
  apply Z.leb_le in Hz. rewrite Hz. reflexivity.
Qed.

(** A restart never touches the phase, even when it raises. *)
Lemma tray_start_phase (now : Q) (s : Tray.tray) :
  Tray.phase (Tray.after (Tray.start now s)) = Tray.phase s.
Proof.
  unfold Tray.start.
  destruct (getitem _ _) as [e | m]; [reflexivity |].
  destruct (mul_int m 60) as [e | secs]; [reflexivity |].
  destruct (float_add now secs) as [e | [t | t]]; reflexivity.
Qed.



(** ** Expiry *)

Lemma remaining_zero_iff (d : Q) : Z.max 0 (py_int d) <= 0 <-> (d < 1)%Q.
Proof.
  split.
  - intros H. apply Qnot_le_lt. intros Hd.
    apply py_int_from_one in Hd. lia.
  - intros H. apply py_int_below_one in H. lia.
Qed.

(** A minute's work started at [t] has run out at [t + 61]. *)
Lemma minute_over (t : Q) :
  clock t -> Z.max 0 (py_int (fl (t + inject_Z (1 * 60)) - (t + 61))%Q) <= 0.
Proof.
  intros Ht. apply remaining_zero_iff.
  pose proof (float_add_int_close t (1 * 60) Ht ltac:(reflexivity)) as E.
  apply Qabs_Qle_condition in E. destruct E as [_ E].
  change (inject_Z (1 * 60)) with 60%Q in *. lra.
Qed.

Lemma app_start_timer_running (now : Q) (s : App.session) :
  App.running s = true -> App.running (App.start_timer now s) = true.
Proof.
  intros H. unfold App.start_timer.
  destruct (float_add _ _) as [e | [d | x]]; [exact H | reflexivity ..].
Qed.

Lemma app_start_timer_frame (now : Q) (s : App.session) :
  App.phase (App.start_timer now s) = App.phase s /\
  App.work_minutes (App.start_timer now s) = App.work_minutes s /\
  App.break_minutes (App.start_timer now s) = App.break_minutes s /\
  App.theme (App.start_timer now s) = App.theme s.
Proof.
  unfold App.start_timer.
  destruct (float_add _ _) as [e | [d | x]]; repeat split.
Qed.

(** C1, as amended: when a running tick computes [remaining <= 0] it tells
    the user, flips the phase, sets the deadline to the float sum of the
    clock at the restart and the new phase's minutes times 60, within half
    a second of the exact sum, and stays running; so with
    [work_minutes = 1], a work phase started at [t] and ticked at [t + 61]
    reports expiry and is in phase [break], running, with the deadline that
    far from the clock at the restart. In the app for durations from the
    widgets, in the tray for int durations in range; [now] is the clock the
    pass reads, [now'] the clock the restart reads. *)
Theorem expiry_chains_into_next_phase :
  (forall (s : App.session) (now now' : Q),
      App.from_widgets s -> clock now' ->
      App.running s = true ->
      App.remaining (App.tick now now' s) <= 0 ->
      let s' := App.after (App.tick now now' s) in
      App.emitted (App.tick now now' s) = [Beep] /\
      (App.phase s = "work" ->
       App.phase s' = "break" /\
       App.end_time s' = fl (now' + inject_Z (App.break_minutes s * 60)) /\
       (Qabs (App.end_time s' - (now' + inject_Z (App.break_minutes s * 60)))
        <= 1 # 2)%Q) /\
      (App.phase s = "break" ->
       App.phase s' = "work" /\
       App.end_time s' = fl (now' + inject_Z (App.work_minutes s * 60)) /\
       (Qabs (App.end_time s' - (now' + inject_Z (App.work_minutes s * 60)))
        <= 1 # 2)%Q) /\
      App.running s' = true) /\
  (forall (s : App.session) (t now' : Q),
      App.from_widgets s -> clock t -> clock now' ->
      App.phase s = "work" -> App.work_minutes s = 1 ->
      let p := App.tick (t + 61) now' (App.start_timer t s) in
      App.emitted p = [Beep] /\
      App.phase (App.after p) = "break" /\
      App.running (App.after p) = true /\
      App.end_time (App.after p) =
      fl (now' + inject_Z (App.break_minutes s * 60))) /\
  (forall (s : Tray.tray) (now now' : Q) (w b : Z),
      Tray.configured (Tray.cfg s) w b -> Tray.in_range w b -> clock now' ->
      Tray.running s = true ->
      Tray.remain (Tray.tick now now' s) <= 0 ->
      let o := Tray.result (Tray.tick now now' s) in
      Tray.raised o = None /\
      In NotifyStageComplete (Tray.emitted o) /\
      (Tray.phase s = "work" ->
       Tray.phase (Tray.after o) = "break" /\
       Tray.end_ts (Tray.after o) = fl (now' + inject_Z (b * 60)) /\
       (Qabs (Tray.end_ts (Tray.after o) - (now' + inject_Z (b * 60)))
        <= 1 # 2)%Q) /\
      (Tray.phase s = "break" ->
       Tray.phase (Tray.after o) = "work" /\
       Tray.end_ts (Tray.after o) = fl (now' + inject_Z (w * 60)) /\
       (Qabs (Tray.end_ts (Tray.after o) - (now' + inject_Z (w * 60)))
        <= 1 # 2)%Q) /\
      Tray.running (Tray.after o) = true) /\
  (forall (s : Tray.tray) (t now' : Q) (b : Z),
      Tray.configured (Tray.cfg s) 1 b -> Tray.in_range 1 b ->
      clock t -> clock now' ->
      Tray.phase s = "work" ->
      let o := Tray.result
                 (Tray.tick (t + 61) now' (Tray.after (Tray.start t s))) in
      Tray.raised o = None /\
      In NotifyStageComplete (Tray.emitted o) /\
      Tray.phase (Tray.after o) = "break" /\
      Tray.running (Tray.after o) = true /\
      Tray.end_ts (Tray.after o) = fl (now' + inject_Z (b * 60))).
Proof.
  assert (W : 10800 < 2 ^ 52) by reflexivity.
  split; [| split; [| split]].
  - intros s now now' Hs Hn Hr Hz s'. subst s'.
    rewrite app_tick_remaining in Hz.
    rewrite (app_tick_expired now now' s Hr Hz).
    rewrite app_start_timer_eq by assumption. simpl.
    destruct Hs as [Hw Hb].
    split; [reflexivity |].
    split; [| split; [| reflexivity]]; intros E; rewrite E.
    + change (is_work "work") with true. cbv iota.
      change (is_work "break") with false. cbv iota.
      split; [reflexivity |].
      split; [reflexivity | apply float_add_int_close; [assumption | lia]].
    + change (is_work "break") with false. cbv iota.
      change (is_work "work") with true. cbv iota.
      split; [reflexivity |].
      split; [reflexivity | apply float_add_int_close; [assumption | lia]].
  - intros s t now' Hs Ht Hn Hp Hw p. subst p.
    rewrite (app_start_timer_eq t s Hs Ht). rewrite Hp, Hw.
    change (is_work "work") with true. cbv iota.
    set (s1 := App.mkSession _ _ _ _ _ _).
    assert (Hz : App.remaining_at (t + 61) s1 <= 0).
    { unfold App.remaining_at. simpl. apply minute_over, Ht. }
    rewrite (app_tick_expired (t + 61) now' s1 eq_refl Hz).
    rewrite app_start_timer_eq; [| subst s1; rewrite <- Hw; exact Hs | exact Hn].
    simpl. repeat split.
  - intros s now now' w b Hc Hi Hn Hr Hz o. subst o.
    rewrite tray_tick_remain in Hz.
    rewrite (tray_tick_expired now now' s Hr Hz).
    rewrite (tray_start_eq now' _ w b) by assumption. simpl.
    destruct Hi as [Rw Rb].
    split; [reflexivity |]. split; [left; reflexivity |].
    split; [| split; [| reflexivity]]; intros E; rewrite E.
    + change (is_work "work") with true. cbv iota.
      change (is_work "break") with false. cbv iota.
      split; [reflexivity |].
      split; [reflexivity | apply float_add_int_close; assumption].
    + change (is_work "break") with false. cbv iota.
      change (is_work "work") with true. cbv iota.
      split; [reflexivity |].
      split; [reflexivity | apply float_add_int_close; assumption].
  - intros s t now' b Hc Hi Ht Hn Hp o. subst o.
    rewrite (tray_start_eq t s 1 b Hc Hi Ht). rewrite Hp.
    change (is_work "work") with true. cbn [Tray.after].
    set (s1 := Tray.mkTray _ _ _ _).
    assert (Hz : Tray.remain_at (t + 61) s1 <= 0).
    { unfold Tray.remain_at. simpl. apply minute_over, Ht. }
    rewrite (tray_tick_expired (t + 61) now' s1 eq_refl Hz).
    rewrite (tray_start_eq now' _ 1 b) by assumption. simpl.
    repeat split. left; reflexivity.
Qed.

(** C1 as first stated has every expiry set [deadline = now + minutes * 60]
    and leave the timer running. In the tray, with [break_minutes] of
    [10 ** 400] the restart raises [OverflowError] after the notification
    and the flip, and the deadline stays where it was; and in the app, when
    the restart reads the clock a second after the pass did, the deadline
    is counted from that later reading. *)
Lemma expiry_restart_can_raise :
  let big := <["work_minutes" := VInt 1]> {["break_minutes" := VInt (10 ^ 400)]} in
  let s := Tray.mkTray (VDict big) "work" true 60 in
  let o := Tray.result (Tray.tick 61 61 s) in
  let a := App.mkSession 1 5 "dark" "work" true 60 in
  (Tray.configured (VDict big) 1 (10 ^ 400) /\
   Tray.remain (Tray.tick 61 61 s) = 0 /\
   Tray.raised o = Some OverflowError /\
   Tray.phase (Tray.after o) = "break" /\
   Tray.end_ts (Tray.after o) = 60%Q /\
   ~ (Tray.end_ts (Tray.after o) == 61 + inject_Z (10 ^ 400 * 60))%Q) /\
  (App.remaining (App.tick 61 62 a) = 0 /\
   (App.end_time (App.after (App.tick 61 62 a)) == 62 + inject_Z (5 * 60))%Q /\
   ~ (App.end_time (App.after (App.tick 61 62 a)) == 61 + inject_Z (5 * 60))%Q).
Proof.
  vm_compute. repeat split; discriminate.
Qed.

(** C10: while the deadline is still less than a second away, a running
    tick already computes [remaining = 0] and takes the expiry branch: the
    user is told, the phase flips and the countdown is restarted. In both
    front-ends. *)
Theorem expiry_fires_within_last_second :
  (forall (s : App.session) (now now' : Q),
      App.running s = true ->
      (0 < App.end_time s - now)%Q -> (App.end_time s - now < 1)%Q ->
      let p := App.tick now now' s in
      App.remaining p = 0 /\
      App.emitted p = [Beep] /\
      App.after p =
      App.start_timer now'
        (App.set_phase (if is_work (App.phase s) then "break" else "work") s)) /\
  (forall (s : Tray.tray) (now now' : Q),
      Tray.running s = true ->
      (0 < Tray.end_ts s - now)%Q -> (Tray.end_ts s - now < 1)%Q ->
      let p := Tray.tick now now' s in
      Tray.remain p = 0 /\
      In NotifyStageComplete (Tray.emitted (Tray.result p)) /\
      Tray.phase (Tray.after (Tray.result p)) =
      (if is_work (Tray.phase s) then "break" else "work") /\
      Tray.after (Tray.result p) =
      Tray.after
        (Tray.start now'
           (Tray.set_phase (if is_work (Tray.phase s) then "break" else "work") s))).
Proof.
  split.
  - intros s now now' Hr H0 H1 p. subst p.
    assert (Hz : App.remaining_at now s = 0).
    { unfold App.remaining_at. rewrite Hr, py_int_fraction by assumption.
      reflexivity. }
    rewrite (app_tick_expired now now' s Hr) by lia.
    rewrite Hz. repeat split.
  - intros s now now' Hr H0 H1 p. subst p.
    assert (Hz : Tray.remain_at now s = 0).
    { unfold Tray.remain_at. rewrite Hr, py_int_fraction by assumption.
      reflexivity. }
    rewrite (tray_tick_expired now now' s Hr) by lia.
    rewrite Hz. simpl.
    split; [reflexivity |]. split; [left; reflexivity |].
    split; [| reflexivity].
    rewrite tray_start_phase. reflexivity.
Qed.

(** ** Reachable states *)

Lemma in_state_space (p : string) (r : bool) :
  p = "work" \/ p = "break" -> In (p, r) state_space.
Proof.
  intros [-> | ->]; destruct r; simpl; tauto.
Qed.

Lemma flipped_phase (p : string) :
  let p' := if is_work p then "break" else "work" in
  p' = "work" \/ p' = "break".
Proof. destruct (is_work p); simpl; tauto. Qed.

Lemma app_step_phase (s : App.session) (o : op) :
  App.phase s = "work" \/ App.phase s = "break" ->
  App.phase (App.step s o) = "work" \/ App.phase (App.step s o) = "break".
Proof.
  intros H. destruct o as [now | | | now now']; simpl.
  - rewrite (proj1 (app_start_timer_frame now s)). exact H.
  - exact H.
  - left; reflexivity.
  - unfold App.tick.
    destruct (App.running s && (App.remaining_at now s <=? 0)); simpl.
    + rewrite (proj1 (app_start_timer_frame now' _)).
      destruct (is_work (App.phase s)); simpl; tauto.
    + exact H.
Qed.

Lemma tray_step_phase (s : Tray.tray) (o : op) :
  Tray.phase s = "work" \/ Tray.phase s = "break" ->
  Tray.phase (Tray.step s o) = "work" \/ Tray.phase (Tray.step s o) = "break".
Proof.
  intros H. destruct o as [now | | | now now']; simpl.
  - rewrite tray_start_phase. exact H.
  - exact H.
  - left; reflexivity.
  - unfold Tray.tick.
    destruct (Tray.running s && (Tray.remain_at now s <=? 0)); simpl.
    + rewrite tray_start_phase. simpl. apply flipped_phase.
    + exact H.
Qed.

Lemma app_run_phase (ops : list op) (s : App.session) :
  App.phase s = "work" \/ App.phase s = "break" ->
  App.phase (App.run ops s) = "work" \/ App.phase (App.run ops s) = "break".
Proof.
  revert s. induction ops as [| o ops IH]; intros s H; simpl.
  - exact H.
  - apply IH, app_step_phase, H.
Qed.

Lemma tray_run_phase (ops : list op) (s : Tray.tray) :
  Tray.phase s = "work" \/ Tray.phase s = "break" ->
  Tray.phase (Tray.run ops s) = "work" \/ Tray.phase (Tray.run ops s) = "break".
Proof.
  revert s. induction ops as [| o ops IH]; intros s H; simpl.
  - exact H.
  - apply IH, tray_step_phase, H.
Qed.

(** C9: whatever sequence of [start], [pause], [reset] and [tick] is applied
    to the initial state, the phase is [work] or [break], so the state is
    one of Idle-work, Running-work, Idle-break, Running-break. In both
    front-ends, and in the tray also when a handler has raised. *)
Theorem reachable_states_stay_in_state_space :
  (forall (w b : Z) (th : string) (ops : list op),
      let s := App.run ops (App.init w b th) in
      (App.phase s = "work" \/ App.phase s = "break") /\
      In (App.phase s, App.running s) state_space) /\
  (forall (c : value) (ops : list op),
      let s := Tray.run ops (Tray.init c) in
      (Tray.phase s = "work" \/ Tray.phase s = "break") /\
      In (Tray.phase s, Tray.running s) state_space).
Proof.
  split.
  - intros w b th ops s.
    assert (H : App.phase s = "work" \/ App.phase s = "break")
      by (apply app_run_phase; left; reflexivity).
    split; [exact H | apply in_state_space, H].
  - intros c ops s.
    assert (H : Tray.phase s = "work" \/ Tray.phase s = "break")
      by (apply tray_run_phase; left; reflexivity).
    split; [exact H | apply in_state_space, H].
Qed.

(** ** Loading and saving the settings *)

(** [load_config] of the app, case by case. *)
Lemma app_load_config_cases (f : fs) :
  App.load_config f =
  if can_mkdir f then
    match config f with
    | None =>
        match can_write f with
        | WriteOk =>
            (inr (VDict App.DEFAULTS),
             mkFs (can_mkdir f) (Some (Json (VDict App.DEFAULTS)))
               (can_read f) (can_write f))
        | WriteDenied => (inr (VDict App.DEFAULTS), f)
        | WriteTruncates =>
            (inr (VDict App.DEFAULTS),
             mkFs (can_mkdir f) (Some Malformed) (can_read f) (can_write f))
        end
    | Some t =>
        if can_read f then
          match t with
          | Json (VDict m) => (inr (VDict (m ∪ App.DEFAULTS)), f)
          | _ => (inr (VDict App.DEFAULTS), f)
          end
        else (inr (VDict App.DEFAULTS), f)
    end
  else (inr (VDict App.DEFAULTS), f).
Proof.
  destruct f as [md c rd wr].
  unfold App.load_config, try_except, bind, mkdir, exists_, read_text, write_text.
  simpl.
  destruct md; [| reflexivity].
  destruct c as [t |]; simpl.
  - destruct rd; [| reflexivity].
    destruct t as [| v]; [reflexivity |].
    destruct v; reflexivity.
  - destruct wr; reflexivity.
Qed.

(** [load_config] of the tray, case by case. *)
Lemma tray_load_config_cases (f : fs) :
  Tray.load_config f =
  if can_mkdir f then
    match config f with
    | None =>
        match can_write f with
        | WriteOk =>
            (inr (VDict Tray.defaults),
             mkFs (can_mkdir f) (Some (Json (VDict Tray.defaults)))
               (can_read f) (can_write f))
        | WriteDenied => (inr (VDict Tray.defaults), f)
        | WriteTruncates =>
            (inr (VDict Tray.defaults),
             mkFs (can_mkdir f) (Some Malformed) (can_read f) (can_write f))
        end
    | Some t =>
        if can_read f then
          match t with
          | Json v => (inr v, f)
          | Malformed => (inr (VDict Tray.defaults), f)
          end
        else (inr (VDict Tray.defaults), f)
    end
  else (inr (VDict Tray.defaults), f).
Proof.
  destruct f as [md c rd wr].
  unfold Tray.load_config, try_except, bind, mkdir, exists_, read_text, write_text.
  simpl.
  destruct md; [| reflexivity].
  destruct c as [t |]; simpl.
  - destruct rd; [| reflexivity].
    destruct t as [| v]; reflexivity.
  - destruct wr; [| reflexivity ..]. simpl.
    destruct rd; reflexivity.
Qed.

Lemma app_save_config_cases (v : value) (f : fs) :
  App.save_config v f =
  match can_write f with
  | WriteOk =>
      (inr tt, mkFs (can_mkdir f) (Some (Json v)) (can_read f) (can_write f))
  | WriteDenied => (inr tt, f)
  | WriteTruncates =>
      (inr tt, mkFs (can_mkdir f) (Some Malformed) (can_read f) (can_write f))
  end.
Proof.
  unfold App.save_config, try_except, write_text.
  destruct (can_write f); reflexivity.
Qed.

Lemma union_defaults_twice (m d : gmap string value) : (m ∪ d) ∪ d = m ∪ d.
Proof.
  rewrite <- (assoc_L (∪)). rewrite (idemp_L (∪)). reflexivity.
Qed.

Lemma app_load_config_dict (f : fs) :
  exists r : gmap string value, fst (App.load_config f) = inr (VDict r).
Proof.
  rewrite app_load_config_cases.
  destruct f as [md c rd wr]; simpl.
  destruct md; [| eauto].
  destruct c as [[| v] |].
  - destruct rd; eauto.
  - destruct rd; [| eauto]. destruct v; eauto.
  - destruct wr; eauto.
Qed.

(** C5: [load_config] returns a value on every file system, never an
    exception; it returns the defaults when the directory cannot be made,
    when the file is missing (whether or not it can then be written), when
    it cannot be read, and when it does not parse; it leaves an existing
    file, malformed or not, as it found it; and the one file it ever writes
    is a missing one, which it leaves holding the defaults, or empty when
    the write fails after the open. In both front-ends. *)
Theorem load_config_never_raises :
  (forall f : fs,
      (exists v, fst (App.load_config f) = inr v) /\
      (can_mkdir f = false \/ config f = None \/ can_read f = false \/
       config f = Some Malformed ->
       fst (App.load_config f) = inr (VDict App.DEFAULTS)) /\
      (config f <> None -> snd (App.load_config f) = f) /\
      (snd (App.load_config f) = f \/
       config f = None /\
       (snd (App.load_config f) =
        mkFs (can_mkdir f) (Some (Json (VDict App.DEFAULTS)))
          (can_read f) (can_write f) \/
        snd (App.load_config f) =
        mkFs (can_mkdir f) (Some Malformed) (can_read f) (can_write f)))) /\
  (forall f : fs,
      (exists v, fst (Tray.load_config f) = inr v) /\
      (can_mkdir f = false \/ config f = None \/ can_read f = false \/
       config f = Some Malformed ->
       fst (Tray.load_config f) = inr (VDict Tray.defaults)) /\
      (config f <> None -> snd (Tray.load_config f) = f) /\
      (snd (Tray.load_config f) = f \/
       config f = None /\
       (snd (Tray.load_config f) =
        mkFs (can_mkdir f) (Some (Json (VDict Tray.defaults)))
          (can_read f) (can_write f) \/
        snd (Tray.load_config f) =
        mkFs (can_mkdir f) (Some Malformed) (can_read f) (can_write f)))).
Proof.
  split; intros f.
  - rewrite app_load_config_cases.
    destruct f as [md c rd wr]; simpl.
    split; [| split; [| split]].
    + destruct md; [| eauto]. destruct c as [[| v] |].
      * destruct rd; eauto.
      * destruct rd; [| eauto]. destruct v; eauto.
      * destruct wr; eauto.
    + intros [-> | [-> | [-> | ->]]].
      * reflexivity.
      * destruct md; [| reflexivity]. destruct wr; reflexivity.
      * destruct md; [| reflexivity]. destruct c; [reflexivity |].
        destruct wr; reflexivity.
      * destruct md; [| reflexivity]. destruct rd; reflexivity.
    + intros Hc. destruct md; [| reflexivity].
      destruct c as [[| v] |]; [| | congruence].
      * destruct rd; reflexivity.
      * destruct rd; [| reflexivity]. destruct v; reflexivity.
    + destruct md; [| left; reflexivity].
      destruct c as [[| v] |].
      * left. destruct rd; reflexivity.
      * left. destruct rd; [| reflexivity]. destruct v; reflexivity.
      * destruct wr; simpl; [right | left | right]; auto.
  - rewrite tray_load_config_cases.
    destruct f as [md c rd wr]; simpl.
    split; [| split; [| split]].
    + destruct md; [| eauto]. destruct c as [[| v] |].
      * destruct rd; eauto.
      * destruct rd; eauto.
      * destruct wr; eauto.
    + intros [-> | [-> | [-> | ->]]].
      * reflexivity.
      * destruct md; [| reflexivity]. destruct wr; reflexivity.
      * destruct md; [| reflexivity]. destruct c; [reflexivity |].
        destruct wr; reflexivity.
      * destruct md; [| reflexivity]. destruct rd; reflexivity.
    + intros Hc. destruct md; [| reflexivity].
      destruct c as [[| v] |]; [| | congruence].
      * destruct rd; reflexivity.
      * destruct rd; reflexivity.
    + destruct md; [| left; reflexivity].
      destruct c as [[| v] |].
      * left. destruct rd; reflexivity.
      * left. destruct rd; reflexivity.
      * destruct wr; simpl; [right | left | right]; auto.
Qed.

(** What a load returns has the defaults in it already. *)
Lemma app_load_result_absorbs (f : fs) (r : gmap string value) :
  fst (App.load_config f) = inr (VDict r) -> r ∪ App.DEFAULTS = r.
Proof.
  rewrite app_load_config_cases.
  destruct f as [md c rd wr]; simpl.
  destruct md; [| intros [= <-]; reflexivity].
  destruct c as [[| v] |].
  - destruct rd; intros [= <-]; reflexivity.
  - destruct rd; [| intros [= <-]; reflexivity].
    destruct v; intros [= <-]; try reflexivity. apply union_defaults_twice.
  - destruct wr; intros [= <-]; reflexivity.
Qed.

(** C8, as amended: loading, saving what was loaded and loading again
    returns what the first load returned, whenever the write of the save
    either works or fails without touching the file; and whatever a load
    has returned, saved over any file system on which directory, read and
    write work, is what the next load returns. When the write fails after the
    open, the save swallows the failure and the next load returns the
    defaults. *)
Theorem save_then_load_is_stable :
  (forall f : fs,
      can_write f <> WriteTruncates ->
      exists v : value,
        fst (App.load_config f) = inr v /\
        fst (App.load_config
               (snd (App.save_config v (snd (App.load_config f))))) = inr v) /\
  (forall f g : fs,
      can_mkdir g = true -> can_read g = true -> can_write g = true ->
      exists v : value,
        fst (App.load_config f) = inr v /\
        fst (App.load_config (snd (App.save_config v g))) = inr v) /\
  (forall f : fs,
      can_write f = WriteTruncates ->
      exists v : value,
        fst (App.load_config f) = inr v /\
        fst (App.load_config
               (snd (App.save_config v (snd (App.load_config f))))) =
        inr (VDict App.DEFAULTS)).
Proof.
  split; [| split].
  - intros f Hw. rewrite (app_load_config_cases f).
    destruct f as [md c rd wr]; simpl in *.
    destruct md.
    + destruct c as [[| v] |].
      * destruct rd; (eexists; split; [reflexivity |]);
          rewrite app_save_config_cases, app_load_config_cases;
          destruct wr; try congruence; reflexivity.
      * destruct rd.
        -- destruct v;
             (eexists; split; [reflexivity |]);
             rewrite app_save_config_cases, app_load_config_cases;
             destruct wr; try congruence; simpl;
             rewrite ?union_defaults_twice; reflexivity.
        -- eexists; split; [reflexivity |].
           rewrite app_save_config_cases, app_load_config_cases.
           destruct wr; try congruence; reflexivity.
      * destruct wr; try congruence; (eexists; split; [reflexivity |]);
          rewrite app_save_config_cases, app_load_config_cases; simpl;
          destruct rd; reflexivity.
    + eexists; split; [reflexivity |].
      rewrite app_save_config_cases, app_load_config_cases.
      destruct wr; try congruence; reflexivity.
  - intros f g Hm Hr Hw.
    destruct (app_load_config_dict f) as [r E].
    exists (VDict r). split; [exact E |].
    rewrite app_save_config_cases, Hw. simpl.
    rewrite app_load_config_cases. simpl. rewrite Hm, Hr.
    rewrite (app_load_result_absorbs f r E). reflexivity.
  - intros f Hw.
    destruct (app_load_config_dict f) as [r E].
    exists (VDict r). split; [exact E |].
    assert (W : can_write (snd (App.load_config f)) = WriteTruncates).
    { rewrite app_load_config_cases.
      destruct f as [md c rd wr]; simpl in *. subst wr.
      destruct md; [| reflexivity].
      destruct c as [[| v] |]; [destruct rd; reflexivity | | reflexivity].
      destruct rd; [| reflexivity]. destruct v; reflexivity. }
    rewrite app_save_config_cases, W.
    rewrite app_load_config_cases. simpl.
    destruct (can_mkdir _); [| reflexivity].
    destruct (can_read _); reflexivity.
Qed.

(** C8 as first stated speaks of every file system. A readable file that
    holds 40 work minutes, on a disk where a write fails after the open:
    the load returns 40, the save leaves the file empty, and the next load
    returns the default 25. *)
Lemma save_can_empty_the_file :
  let f := mkFs true (Some (Json (VDict {["work_minutes" := VInt 40]}))) true
             WriteTruncates in
  exists r : gmap string value,
    fst (App.load_config f) = inr (VDict r) /\
    r !! "work_minutes" = Some (VInt 40) /\
    fst (App.load_config
           (snd (App.save_config (VDict r) (snd (App.load_config f))))) =
    inr (VDict App.DEFAULTS) /\
    App.DEFAULTS !! "work_minutes" = Some (VInt 25).
Proof.
  eexists. repeat split.
Qed.

(** In the app a key that the file's object lacks comes out with its
    default, a key that it has comes out as the file has it when the file
    can be read, and one more key in the file changes the result at no other
    key. *)
Lemma app_load_config_fills_missing_keys (f : fs) (m : gmap string value) :
  config f = Some (Json (VDict m)) ->
  exists r : gmap string value,
    fst (App.load_config f) = inr (VDict r) /\
    (forall k, m !! k = None -> r !! k = App.DEFAULTS !! k) /\
    (can_mkdir f = true -> can_read f = true ->
     forall k x, m !! k = Some x -> r !! k = Some x) /\
    (forall (u : string) (x : value),
        exists r' : gmap string value,
          fst (App.load_config
                 (mkFs (can_mkdir f) (Some (Json (VDict (<[u := x]> m))))
                    (can_read f) (can_write f))) = inr (VDict r') /\
          forall k, k <> u -> r' !! k = r !! k).
Proof.
  intros Hc. destruct f as [md c rd wr]; simpl in Hc; subst c.
  destruct md, rd.
  - exists (m ∪ App.DEFAULTS).
    split; [rewrite app_load_config_cases; reflexivity |].
    split; [| split].
    + intros k Hk. rewrite lookup_union_r by exact Hk. reflexivity.
    + intros _ _ k x Hk. apply lookup_union_Some_l, Hk.
    + intros u x. rewrite app_load_config_cases. simpl.
      exists (<[u := x]> m ∪ App.DEFAULTS). split; [reflexivity |].
      intros k Hk. rewrite !lookup_union, lookup_insert_ne by congruence.
      reflexivity.
  - exists App.DEFAULTS.
    split; [rewrite app_load_config_cases; reflexivity |].
    split; [reflexivity |]. split; [discriminate |].
    intros u x. rewrite app_load_config_cases. simpl. eauto.
  - exists App.DEFAULTS.
    split; [rewrite app_load_config_cases; reflexivity |].
    split; [reflexivity |]. split; [discriminate |].
    intros u x. rewrite app_load_config_cases. simpl. eauto.
  - exists App.DEFAULTS.
    split; [rewrite app_load_config_cases; reflexivity |].
    split; [reflexivity |]. split; [discriminate |].
    intros u x. rewrite app_load_config_cases. simpl. eauto.
Qed.

(** C4 asks that a key missing from the file come out with its default in
    both front-ends. On a readable file holding [{"theme": "light"}] the app
    returns 25 for [work_minutes]; the tray returns the file's object as it
    is, with no [work_minutes], and its [start] then raises [KeyError]. *)
Theorem tray_load_config_keeps_keys_missing :
  let m : gmap string value := {["theme" := VStr "light"]} in
  let f := mkFs true (Some (Json (VDict m))) true true in
  (exists r, fst (App.load_config f) = inr (VDict r) /\
             r !! "work_minutes" = Some (VInt 25)) /\
  fst (Tray.load_config f) = inr (VDict m) /\
  m !! "work_minutes" = None /\
  Tray.raised (Tray.start 0 (Tray.init (VDict m))) = Some KeyError.
Proof.
  intros m f. split.
  - exists (m ∪ App.DEFAULTS). split; reflexivity.
  - repeat split.
Qed.

(** The scenario of the specification: 25 and 5 minutes, started at 0; the
    tick at 1500 beeps and opens a break that ends at 1800, the tick at 1800
    beeps and opens work that ends at 3300. *)
Example scenario_25_5 :
  let s0 := App.start_timer 0 (App.init 25 5 "dark") in
  let p1 := App.tick 1500 1500 s0 in
  let p2 := App.tick 1800 1800 (App.after p1) in
  App.emitted p1 = [Beep] /\
  App.phase (App.after p1) = "break" /\
  (App.end_time (App.after p1) == 1800)%Q /\
  App.emitted p2 = [Beep] /\
  App.phase (App.after p2) = "work" /\
  (App.end_time (App.after p2) == 3300)%Q.
Proof. repeat split. Qed.

(** ** The theorems at concrete timers and files *)

Ltac at_clock := split; [discriminate | reflexivity].

(** A 25-minute work phase reset and started at 1000 shows 1500 seconds, in
    the app and in the tray: 1000 + 1500 is a float. *)
Lemma start_sets_deadline_and_runs_at_1000 :
  App.remaining
    (App.tick 1000 1000
       (App.start_timer 1000 (App.reset_timer (App.init 25 5 "dark")))) = 25 * 60 /\
  Tray.remain
    (Tray.tick 1000 1000
       (Tray.after
          (Tray.start 1000 (Tray.reset (Tray.init (VDict Tray.defaults)))))) = 25 * 60.
Proof.
  split.
  - apply (proj2 (proj1 (proj2 start_sets_deadline_and_runs)
                    (App.init 25 5 "dark") 1000%Q 1000%Q 25
                    ltac:(unfold App.from_widgets; simpl; lia)
                    ltac:(at_clock) eq_refl)).
    vm_compute. reflexivity.
  - apply (proj2 (proj2 (proj2 (proj2 start_sets_deadline_and_runs))
                    (Tray.init (VDict Tray.defaults)) 1000%Q 1000%Q 25 5
                    ltac:(lia) (conj eq_refl eq_refl)
                    ltac:(split; reflexivity) ltac:(at_clock))).
    vm_compute. reflexivity.
Defined.

(** Pausing an idle app timer and an idle tray timer leaves them as they
    were. *)
Lemma pause_is_idempotent_and_frames_when_idle :
  App.pause_timer (App.init 25 5 "dark") = App.init 25 5 "dark" /\
  Tray.pause (Tray.init (VDict Tray.defaults)) = Tray.init (VDict Tray.defaults).
Proof.
  split.
  - apply (proj2 (proj2 (proj1 pause_is_idempotent_and_frames
                            (App.init 25 5 "dark")))).
    reflexivity.
  - apply (proj2 (proj2 (proj2 pause_is_idempotent_and_frames
                            (Tray.init (VDict Tray.defaults))))).
    reflexivity.
Defined.


(** A one-minute work phase started at 0 and ticked at 61, in the app; a
    break that ran out at 300 and is ticked at 300, in the tray. *)
Lemma expiry_chains_into_next_phase_after_a_minute :
  (let p := App.tick (0 + 61) (0 + 61) (App.start_timer 0 (App.init 1 5 "dark")) in
   App.emitted p = [Beep] /\
   App.phase (App.after p) = "break" /\
   App.running (App.after p) = true /\
   App.end_time (App.after p) = fl (0 + 61 + inject_Z (5 * 60))) /\
  (let o := Tray.result
              (Tray.tick 300 300 (Tray.mkTray (VDict Tray.defaults) "break" true 300)) in
   Tray.phase (Tray.after o) = "work" /\
   Tray.end_ts (Tray.after o) = fl (300 + inject_Z (25 * 60))).
Proof.
  split.
  - apply (proj1 (proj2 expiry_chains_into_next_phase)
             (App.init 1 5 "dark") 0%Q (0 + 61)%Q);
      [unfold App.from_widgets; simpl; lia | at_clock | at_clock
      | reflexivity | reflexivity].
  - pose proof (proj1 (proj2 (proj2 expiry_chains_into_next_phase))
                  (Tray.mkTray (VDict Tray.defaults) "break" true 300%Q)
                  300%Q 300%Q 25 5
                  (conj eq_refl eq_refl) ltac:(split; reflexivity)
                  ltac:(at_clock) eq_refl
                  ltac:(vm_compute; discriminate)) as H.
    destruct H as [_ [_ [_ [H _]]]].
    destruct (H eq_refl) as [H1 [H2 _]]. split; assumption.
Defined.

(** Half a second before the deadline the app already beeps and the tray
    already flips to the break. *)
Lemma expiry_fires_within_last_second_at_half :
  (let p := App.tick (1 # 2) (1 # 2) (App.mkSession 25 5 "dark" "work" true 1) in
   App.remaining p = 0 /\ App.emitted p = [Beep]) /\
  (let p := Tray.tick (1 # 2) (1 # 2) (Tray.mkTray (VDict Tray.defaults) "work" true 1) in
   Tray.remain p = 0 /\ Tray.phase (Tray.after (Tray.result p)) = "break").
Proof.
  split.
  - pose proof (proj1 expiry_fires_within_last_second
                  (App.mkSession 25 5 "dark" "work" true 1%Q) (1 # 2)%Q (1 # 2)%Q
                  eq_refl eq_refl eq_refl) as H.
    split; [exact (proj1 H) | exact (proj1 (proj2 H))].
  - pose proof (proj2 expiry_fires_within_last_second
                  (Tray.mkTray (VDict Tray.defaults) "work" true 1%Q)
                  (1 # 2)%Q (1 # 2)%Q eq_refl eq_refl eq_refl) as H.
    split; [exact (proj1 H) | exact (proj1 (proj2 (proj2 H)))].
Defined.

(** What a load of a file with 40 work minutes returned, saved over a
    malformed file where everything works, is what the next load returns. *)
Lemma save_then_load_is_stable_over_another_file :
  let f := mkFs true (Some (Json (VDict {["work_minutes" := VInt 40]}))) true true in
  let g := mkFs true (Some Malformed) true true in
  exists v : value,
    fst (App.load_config f) = inr v /\
    fst (App.load_config (snd (App.save_config v g))) = inr v.
Proof.
  intros f g.
  apply (proj1 (proj2 save_then_load_is_stable) f g); reflexivity.
Defined.

(** A malformed file gives the defaults and stays as it is, in both
    front-ends. *)
Lemma load_config_never_raises_on_malformed :
  let f := mkFs true (Some Malformed) true true in
  (fst (App.load_config f) = inr (VDict App.DEFAULTS) /\
   snd (App.load_config f) = f) /\
  (fst (Tray.load_config f) = inr (VDict Tray.defaults) /\
   snd (Tray.load_config f) = f).
Proof.
  intros f. split.
  - destruct (proj1 load_config_never_raises f) as [_ [Hd [Hf _]]]. split.
    + apply Hd. right; right; right. reflexivity.
    + apply Hf. discriminate.
  - destruct (proj2 load_config_never_raises f) as [_ [Hd [Hf _]]]. split.
    + apply Hd. right; right; right. reflexivity.
    + apply Hf. discriminate.
Defined.

(** ** More on the timers *)

Lemma tray_start_cfg (now : Q) (s : Tray.tray) :
  Tray.cfg (Tray.after (Tray.start now s)) = Tray.cfg s.
Proof.
  unfold Tray.start.
  destruct (getitem _ _) as [e | m]; [reflexivity |].
  destruct (mul_int m 60) as [e | secs]; [reflexivity |].
  destruct (float_add now secs) as [e | [t | t]]; reflexivity.
Qed.

Lemma tray_start_running (now : Q) (s : Tray.tray) :
  Tray.running s = true -> Tray.running (Tray.after (Tray.start now s)) = true.
Proof.
  intros H. unfold Tray.start.
  destruct (getitem _ _) as [e | m]; [exact H |].
  destruct (mul_int m 60) as [e | secs]; [exact H |].
  destruct (float_add now secs) as [e | [t | t]]; [exact H | reflexivity ..].
Qed.

Lemma app_step_settings (s : App.session) (o : op) :
  App.work_minutes (App.step s o) = App.work_minutes s /\
  App.break_minutes (App.step s o) = App.break_minutes s /\
  App.theme (App.step s o) = App.theme s.
Proof.
  destruct o as [now | | | now now']; simpl; try (repeat split; reflexivity).
  - apply (proj2 (app_start_timer_frame now s)).
  - unfold App.tick.
    destruct (App.running s && (App.remaining_at now s <=? 0)); simpl.
    + destruct (app_start_timer_frame now'
                  (if is_work (App.phase s) then App.set_phase "break" s
                   else App.set_phase "work" s)) as [_ [H1 [H2 H3]]].
      rewrite H1, H2, H3. destruct (is_work (App.phase s)); repeat split.
    + repeat split.
Qed.

Lemma tray_step_cfg (s : Tray.tray) (o : op) :
  Tray.cfg (Tray.step s o) = Tray.cfg s.
Proof.
  destruct o as [now | | | now now']; simpl; try reflexivity.
  - apply tray_start_cfg.
  - unfold Tray.tick.
    destruct (Tray.running s && (Tray.remain_at now s <=? 0)); simpl.
    + rewrite tray_start_cfg. reflexivity.
    + reflexivity.
Qed.

Lemma app_run_settings (ops : list op) (s : App.session) :
  App.work_minutes (App.run ops s) = App.work_minutes s /\
  App.break_minutes (App.run ops s) = App.break_minutes s /\
  App.theme (App.run ops s) = App.theme s.
Proof.
  revert s. induction ops as [| o ops IH]; intros s; simpl.
  - repeat split.
  - destruct (IH (App.step s o)) as [H1 [H2 H3]].
    destruct (app_step_settings s o) as [E1 [E2 E3]].
    unfold App.run in *. rewrite H1, H2, H3, E1, E2, E3. repeat split.
Qed.

Lemma tray_run_cfg (ops : list op) (s : Tray.tray) :
  Tray.cfg (Tray.run ops s) = Tray.cfg s.
Proof.
  revert s. induction ops as [| o ops IH]; intros s; simpl.
  - reflexivity.
  - unfold Tray.run in *. rewrite IH. apply tray_step_cfg.
Qed.

(** X1: no sequence of starts, pauses, resets and passes changes the
    durations or the theme of the app's session, or the tray's [cfg]. *)
Theorem timer_ops_keep_settings :
  (forall (ops : list op) (s : App.session),
      App.work_minutes (App.run ops s) = App.work_minutes s /\
      App.break_minutes (App.run ops s) = App.break_minutes s /\
      App.theme (App.run ops s) = App.theme s) /\
  (forall (ops : list op) (s : Tray.tray),
      Tray.cfg (Tray.run ops s) = Tray.cfg s).
Proof.
  split; [apply app_run_settings | apply tray_run_cfg].
Qed.

(** X2: reset forgets the whole history: after any sequence of operations
    it gives what it gives on the state the sequence began with. *)
Theorem reset_forgets_history :
  (forall (ops : list op) (s : App.session),
      App.reset_timer (App.run ops s) = App.reset_timer s) /\
  (forall (ops : list op) (s : Tray.tray),
      Tray.reset (Tray.run ops s) = Tray.reset s).
Proof.
  split; intros ops s.
  - destruct (app_run_settings ops s) as [H1 [H2 H3]].
    unfold App.reset_timer, App.set_end_time, App.set_phase, App.set_running.
    simpl. rewrite H1, H2, H3. reflexivity.
  - unfold Tray.reset, Tray.set_end_ts, Tray.set_phase, Tray.set_running.
    simpl. rewrite tray_run_cfg. reflexivity.
Qed.

Lemma app_tick_keeps_running (now now' : Q) (s : App.session) :
  App.running (App.after (App.tick now now' s)) = App.running s.
Proof.
  unfold App.tick. destruct (App.running s) eqn:Hr; simpl.
  - destruct (App.remaining_at now s <=? 0); simpl; [| exact Hr].
    apply app_start_timer_running.
    destruct (is_work (App.phase s)); exact Hr.
  - exact Hr.
Qed.

Lemma tray_tick_keeps_running (now now' : Q) (s : Tray.tray) :
  Tray.running (Tray.after (Tray.result (Tray.tick now now' s))) = Tray.running s.
Proof.
  unfold Tray.tick. destruct (Tray.running s) eqn:Hr; simpl.
  - destruct (Tray.remain_at now s <=? 0); simpl; [| exact Hr].
    apply tray_start_running. exact Hr.
  - exact Hr.
Qed.

(** X3: passes of the polling loop never stop or start a timer: through any
    number of them a running timer stays running, expiries included (in the
    tray also when the restart raises), and an idle one stays idle. *)
Theorem passes_keep_running :
  (forall (ops : list op) (s : App.session),
      only_ticks ops -> App.running (App.run ops s) = App.running s) /\
  (forall (ops : list op) (s : Tray.tray),
      only_ticks ops -> Tray.running (Tray.run ops s) = Tray.running s).
Proof.
  split; intros ops; induction ops as [| o ops IH]; intros s H;
    try reflexivity; inversion H as [| o' ops' Ho Hops]; subst;
    destruct o as [t | | | now now']; try contradiction;
    simpl; unfold App.run, Tray.run in *; rewrite (IH _ Hops); simpl.
  - apply app_tick_keeps_running.
  - apply tray_tick_keeps_running.
Qed.

(** X4: while a timer is idle the polling loop changes nothing at all: any
    number of passes leaves the state exactly as it was. *)
Theorem idle_passes_change_nothing :
  (forall (ops : list op) (s : App.session),
      only_ticks ops -> App.running s = false -> App.run ops s = s) /\
  (forall (ops : list op) (s : Tray.tray),
      only_ticks ops -> Tray.running s = false -> Tray.run ops s = s).
Proof.
  split; intros ops; induction ops as [| o ops IH]; intros s H Hr;
    try reflexivity; inversion H as [| o' ops' Ho Hops]; subst;
    destruct o as [t | | | now now']; try contradiction; simpl.
  - rewrite app_tick_idle by exact Hr. simpl. apply IH; assumption.
  - rewrite tray_tick_idle by exact Hr. simpl. apply IH; assumption.
Qed.

(** X5: a pass takes the expiry branch exactly when the timer is running
    and less than one whole second is left to the deadline; on every other
    pass nothing is emitted and the state is left as it is. *)
Theorem pass_expires_iff_under_a_second :
  (forall (s : App.session) (now now' : Q),
      (App.emitted (App.tick now now' s) = [Beep] <->
       App.running s = true /\ (App.end_time s - now < 1)%Q) /\
      (~ (App.running s = true /\ (App.end_time s - now < 1)%Q) ->
       App.emitted (App.tick now now' s) = [] /\
       App.after (App.tick now now' s) = s)) /\
  (forall (s : Tray.tray) (now now' : Q),
      (In NotifyStageComplete (Tray.emitted (Tray.result (Tray.tick now now' s))) <->
       Tray.running s = true /\ (Tray.end_ts s - now < 1)%Q) /\
      (~ (Tray.running s = true /\ (Tray.end_ts s - now < 1)%Q) ->
       Tray.result (Tray.tick now now' s) = Tray.mkOutcome None [] s)).
Proof.
  split; intros s now now'.
  - unfold App.tick, App.remaining_at.
    destruct (App.running s); simpl.
    + destruct (Z.leb_spec (Z.max 0 (py_int (App.end_time s - now)%Q)) 0) as [H | H];
        simpl.
      * apply remaining_zero_iff in H. split; [tauto |]. intros N. tauto.
      * assert (N : ~ (App.end_time s - now < 1)%Q)
          by (intros L; apply remaining_zero_iff in L; lia).
        split; [| tauto]. split; [discriminate | tauto].
    + split; [| tauto]. split; [discriminate | intros [E _]; discriminate].
  - unfold Tray.tick, Tray.remain_at.
    destruct (Tray.running s); simpl.
    + destruct (Z.leb_spec (Z.max 0 (py_int (Tray.end_ts s - now)%Q)) 0) as [H | H];
        simpl.
      * apply remaining_zero_iff in H. split; [tauto |]. intros N. tauto.
      * assert (N : ~ (Tray.end_ts s - now < 1)%Q)
          by (intros L; apply remaining_zero_iff in L; lia).
        split; [| tauto]. split; [tauto | tauto].
    + split; [| tauto]. split; [tauto | intros [E _]; discriminate].
Qed.

(** X6: the seconds a pass computes are never negative and never go up as
    the clock goes on, and after a start at the clock reading [t] with
    durations from the widgets no pass at or after [t] computes more than
    the [d * 60] of the phase. *)
Theorem countdown_is_bounded_and_monotone :
  (forall (s : App.session) (now1 now2 : Q),
      0 <= App.remaining_at now1 s /\
      ((now1 <= now2)%Q -> App.remaining_at now2 s <= App.remaining_at now1 s)) /\
  (forall (s : App.session) (t now : Q),
      App.from_widgets s -> clock t ->
      (t <= now)%Q ->
      0 <= (if is_work (App.phase s) then App.work_minutes s
            else App.break_minutes s) ->
      App.remaining_at now (App.start_timer t s) <=
      (if is_work (App.phase s) then App.work_minutes s
       else App.break_minutes s) * 60) /\
  (forall (s : Tray.tray) (now1 now2 : Q),
      0 <= Tray.remain_at now1 s /\
      ((now1 <= now2)%Q -> Tray.remain_at now2 s <= Tray.remain_at now1 s)).
Proof.
  split; [| split].
  - intros s now1 now2. unfold App.remaining_at.
    destruct (App.running s); [| lia].
    split; [lia |]. intros H.
    assert (py_int (App.end_time s - now2)%Q <= py_int (App.end_time s - now1)%Q)
      by (apply py_int_mono; lra).
    lia.
  - intros s t now Hs Hc Ht Hd.
    rewrite (app_start_timer_eq t s Hs Hc).
    unfold App.remaining_at. simpl.
    pose proof (widget_seconds s Hs) as Hn.
    set (n := (if is_work (App.phase s) then App.work_minutes s
               else App.break_minutes s) * 60) in *.
    pose proof (float_add_int_close t n Hc Hn) as E.
    apply Qabs_Qle_condition in E. destruct E as [_ E].
    set (d := (fl (t + inject_Z n) - now)%Q).
    assert (Hu : (d < inject_Z (n + 1))%Q).
    { rewrite inject_Z_plus. change (inject_Z 1) with 1%Q. subst d. lra. }
    destruct (Qlt_le_dec d 0) as [Neg | Pos].
    + assert (py_int d <= 0) by (apply py_int_below_one; lra). lia.
    + pose proof (py_int_le_self d Pos) as S.
      assert (U : (inject_Z (py_int d) < inject_Z (n + 1))%Q) by lra.
      rewrite <- Zlt_Qlt in U. lia.
  - intros s now1 now2. unfold Tray.remain_at.
    destruct (Tray.running s); [| lia].
    split; [lia |]. intros H.
    assert (py_int (Tray.end_ts s - now2)%Q <= py_int (Tray.end_ts s - now1)%Q)
      by (apply py_int_mono; lra).
    lia.
Qed.

(** Why the bound is stated for a clock and for durations from the
    widgets. At the reading [2 ** 60] floats are 256 apart, and a start with
    3 minutes leaves 256 seconds; and 1200959900632133 minutes are
    [2 ** 56 + 44] seconds, which as a float are four more. *)
Lemma countdown_bound_needs_a_clock :
  let t := inject_Z (2 ^ 60) in
  let m := 1200959900632133 in
  (App.remaining_at t (App.start_timer t (App.init 3 5 "dark")) = 256 /\
   3 * 60 = 180) /\
  (App.remaining_at 0 (App.start_timer 0 (App.init m 5 "dark")) = m * 60 + 4).
Proof.
  vm_compute. repeat split.
Qed.

(** X7: how long a phase lasts. After a start at the clock reading [t] in a
    phase of [d] minutes, a pass at [now] takes the expiry branch whenever
    [now - t > d * 60 - 1/2] and never while [now - t <= d * 60 - 3/2]: the
    float sum of the deadline is within half a second of the exact one. *)
Theorem phase_expires_after_its_length :
  (forall (s : App.session) (t now now' : Q),
      App.from_widgets s -> clock t ->
      let d := if is_work (App.phase s) then App.work_minutes s
               else App.break_minutes s in
      ((inject_Z (d * 60) - (1 # 2) < now - t)%Q ->
       App.emitted (App.tick now now' (App.start_timer t s)) = [Beep]) /\
      ((now - t <= inject_Z (d * 60) - (3 # 2))%Q ->
       App.emitted (App.tick now now' (App.start_timer t s)) = [])) /\
  (forall (s : Tray.tray) (t now now' : Q) (w b : Z),
      Tray.configured (Tray.cfg s) w b -> Tray.in_range w b -> clock t ->
      let d := if is_work (Tray.phase s) then w else b in
      ((inject_Z (d * 60) - (1 # 2) < now - t)%Q ->
       In NotifyStageComplete
         (Tray.emitted
            (Tray.result (Tray.tick now now' (Tray.after (Tray.start t s)))))) /\
      ((now - t <= inject_Z (d * 60) - (3 # 2))%Q ->
       Tray.result (Tray.tick now now' (Tray.after (Tray.start t s))) =
       Tray.mkOutcome None [] (Tray.after (Tray.start t s)))).
Proof.
  split.
  - intros s t now now' Hs Hc d.
    rewrite (app_start_timer_eq t s Hs Hc). fold d.
    pose proof (float_add_int_close t (d * 60) Hc (widget_seconds s Hs)) as E.
    apply Qabs_Qle_condition in E. destruct E as [E1 E2].
    unfold App.tick, App.remaining_at. simpl.
    destruct (Z.leb_spec (Z.max 0 (py_int (fl (t + inject_Z (d * 60)) - now)%Q)) 0)
      as [H | H]; simpl.
    + apply remaining_zero_iff in H. split; [reflexivity |].
      intros L. exfalso. lra.
    + assert (N : ~ (fl (t + inject_Z (d * 60)) - now < 1)%Q)
        by (intros L; apply remaining_zero_iff in L; lia).
      split; [| reflexivity]. intros L. exfalso. apply N. lra.
  - intros s t now now' w b Hc Hi Ht d.
    rewrite (tray_start_eq t s w b Hc Hi Ht). fold d.
    assert (Hn : Z.abs (d * 60) < 2 ^ 52).
    { subst d. destruct Hi as [Rw Rb]. destruct (is_work (Tray.phase s)); assumption. }
    pose proof (float_add_int_close t (d * 60) Ht Hn) as E.
    apply Qabs_Qle_condition in E. destruct E as [E1 E2].
    unfold Tray.tick, Tray.remain_at. simpl.
    destruct (Z.leb_spec (Z.max 0 (py_int (fl (t + inject_Z (d * 60)) - now)%Q)) 0)
      as [H | H]; simpl.
    + apply remaining_zero_iff in H. split; [tauto |].
      intros L. exfalso. lra.
    + assert (N : ~ (fl (t + inject_Z (d * 60)) - now < 1)%Q)
        by (intros L; apply remaining_zero_iff in L; lia).
      split; [| reflexivity]. intros L. exfalso. apply N. lra.
Qed.

(** X8: a start does not resume, it restarts: started after a pause or
    after an earlier start, the timer is in the state a start alone gives,
    with the full length of the phase ahead. In the app for durations from
    the widgets, in the tray for int durations in range, at clock
    readings. *)
Theorem start_restarts_from_full_length :
  (forall (s : App.session) (t now : Q),
      App.from_widgets s -> clock t -> clock now ->
      App.start_timer now (App.pause_timer s) = App.start_timer now s /\
      App.start_timer now (App.start_timer t s) = App.start_timer now s) /\
  (forall (s : Tray.tray) (t now : Q) (w b : Z),
      Tray.configured (Tray.cfg s) w b -> Tray.in_range w b ->
      clock t -> clock now ->
      Tray.start now (Tray.pause s) = Tray.start now s /\
      Tray.start now (Tray.after (Tray.start t s)) = Tray.start now s).
Proof.
  split.
  - intros s t now Hs Ht Hn.
    rewrite (app_start_timer_eq t s Hs Ht).
    rewrite (app_start_timer_eq now s Hs Hn).
    split; (rewrite app_start_timer_eq; [reflexivity | exact Hs | exact Hn]).
  - intros s t now w b Hc Hi Ht Hn.
    rewrite (tray_start_eq t s w b Hc Hi Ht).
    rewrite (tray_start_eq now s w b Hc Hi Hn).
    split; (rewrite (tray_start_eq now _ w b); [reflexivity | assumption ..]).
Qed.

(** X9: durations of zero or less make the tray's timer expire on every
    pass. When [cfg] holds two ints that are not positive, a running timer
    that is due at [now] takes the expiry branch, and whatever clock
    reading the restart makes, it is due again at every later pass. *)
Theorem nonpositive_durations_expire_every_pass
  (s : Tray.tray) (now now' now'' : Q) (w b : Z) :
  Tray.configured (Tray.cfg s) w b -> Tray.in_range w b ->
  w <= 0 -> b <= 0 ->
  Tray.running s = true -> (Tray.end_ts s - now < 1)%Q ->
  clock now' -> (now' <= now'')%Q ->
  let o := Tray.result (Tray.tick now now' s) in
  In NotifyStageComplete (Tray.emitted o) /\
  Tray.running (Tray.after o) = true /\
  (Tray.end_ts (Tray.after o) - now'' < 1)%Q.
Proof.
  intros Hc Hi Hw Hb Hr Hd Hn Hl o. subst o.
  assert (Hz : Tray.remain_at now s <= 0).
  { unfold Tray.remain_at. rewrite Hr. apply remaining_zero_iff, Hd. }
  rewrite (tray_tick_expired now now' s Hr Hz).
  rewrite (tray_start_eq now' _ w b) by assumption. simpl.
  split; [left; reflexivity |]. split; [reflexivity |].
  set (m := if is_work _ then _ else _).
  assert (Hm : m <= 0 /\ Z.abs (m * 60) < 2 ^ 52).
  { subst m. destruct Hi as [Rw Rb].
    destruct (is_work (Tray.phase s)); simpl; split; assumption. }
  destruct Hm as [Hm Rm].
  pose proof (float_add_int_close now' (m * 60) Hn Rm) as E.
  apply Qabs_Qle_condition in E. destruct E as [_ E].
  assert (inject_Z (m * 60) <= 0)%Q
    by (unfold Qle; simpl; lia).
  lra.
Qed.

Lemma int_to_float_small (z : Z) :
  Z.abs z <= 2 ^ 53 -> int_to_float z = inr (inject_Z z).
Proof.
  intros H. unfold int_to_float.
  destruct (Z.leb_spec (Z.abs z) (2 ^ 53)); [reflexivity | lia].
Qed.

(** What [start] raises, by what [cfg] holds under the phase's key. *)
Lemma tray_start_raised_cases (now : Q) (s : Tray.tray) :
  let key := if is_work (Tray.phase s) then "work_minutes" else "break_minutes" in
  Tray.raised (Tray.start now s) =
  match getitem (Tray.cfg s) key with
  | inl e => Some e
  | inr (VInt z) =>
      match int_to_float (z * 60) with
      | inl e => Some e
      | inr _ => None
      end
  | inr (VBool _) | inr (VFloat _) | inr (VNotFinite _) => None
  | inr _ => Some TypeError
  end.
Proof.
  unfold Tray.start. simpl.
  destruct (getitem _ _) as [e | v]; [reflexivity |].
  destruct v as [| b | z | q | x | str | l | m]; cbn [mul_int].
  - reflexivity.
  - cbn [float_add].
    rewrite int_to_float_small by (destruct b; vm_compute; discriminate).
    destruct (fadd _ _); reflexivity.
  - cbn [float_add]. destruct (int_to_float (z * 60)) as [e | f]; [reflexivity |].
    destruct (fadd _ _); reflexivity.
  - rewrite int_to_float_small by (vm_compute; discriminate).
    destruct (fmul _ _) as [y | y]; cbn [value_of_float float_add];
      destruct (fadd _ _); reflexivity.
  - rewrite int_to_float_small by (vm_compute; discriminate).
    destruct (fmul _ _) as [y | y]; cbn [value_of_float float_add];
      destruct (fadd _ _); reflexivity.
  - reflexivity.
  - reflexivity.
  - reflexivity.
Qed.

(** X10: the tray's [start] is all or nothing. Either it raises, and then
    it has told the user nothing and left the object exactly as it was, or
    it raises nothing, has sent one notification and left the timer
    running in the same phase. *)
Theorem tray_start_all_or_nothing (now : Q) (s : Tray.tray) :
  let o := Tray.start now s in
  (exists e, Tray.raised o = Some e /\ Tray.emitted o = [] /\ Tray.after o = s) \/
  (Tray.raised o = None /\
   length (Tray.emitted o) = 1%nat /\
   Tray.running (Tray.after o) = true /\
   Tray.phase (Tray.after o) = Tray.phase s /\
   Tray.cfg (Tray.after o) = Tray.cfg s).
Proof.
  unfold Tray.start. simpl.
  destruct (getitem _ _) as [e | v]; [left; eauto |].
  destruct (mul_int v 60) as [e | secs]; [left; eauto |].
  destruct (float_add now secs) as [e | [t | t]]; [left; eauto | right ..];
    repeat split.
Qed.

(** X11: what the tray's [start] needs of [cfg]. It raises nothing exactly
    when [cfg] is a dict that holds, under the current phase's key, a bool,
    a float, or an int whose seconds convert to a float; an int whose
    seconds do not raises [OverflowError], and none of size up to
    [2 ** 53] does; a missing key raises [KeyError]; and a string, as in
    ["work_minutes": "25"], raises [TypeError]. *)
Theorem tray_start_needs_a_number (now : Q) (s : Tray.tray) :
  let key := if is_work (Tray.phase s) then "work_minutes" else "break_minutes" in
  (Tray.raised (Tray.start now s) = None <->
   exists v, getitem (Tray.cfg s) key = inr v /\
             ((exists z f, v = VInt z /\ int_to_float (z * 60) = inr f) \/
              (exists b, v = VBool b) \/
              (exists q, v = VFloat q) \/
              (exists x, v = VNotFinite x))) /\
  (forall z, getitem (Tray.cfg s) key = inr (VInt z) ->
             (int_to_float (z * 60) = inl OverflowError ->
              Tray.raised (Tray.start now s) = Some OverflowError) /\
             (Z.abs (z * 60) <= 2 ^ 53 ->
              Tray.raised (Tray.start now s) = None)) /\
  (forall m, Tray.cfg s = VDict m -> m !! key = None ->
             Tray.raised (Tray.start now s) = Some KeyError) /\
  (forall x, getitem (Tray.cfg s) key = inr (VStr x) ->
             Tray.raised (Tray.start now s) = Some TypeError).
Proof.
  intros key. pose proof (tray_start_raised_cases now s) as C. simpl in C.
  fold key in C. rewrite C. clear C.
  split; [| split; [| split]].
  - destruct (getitem (Tray.cfg s) key) as [e | v].
    + split; [discriminate | intros [v [E _]]; discriminate].
    + destruct v as [| b | z | q | x | str | l | m];
        try (split; [discriminate |
                     intros [v [E [[z' [f' [-> _]]] | [[b' ->] | [[q' ->] | [x' ->]]]]]];
                     discriminate]);
        try (split; [intros _; eexists; split; [reflexivity | eauto 8] | reflexivity]).
      destruct (int_to_float (z * 60)) as [e | f] eqn:I.
      * split; [discriminate |].
        intros [v [E [[z' [f' [Ez If]]] | [[b' ->] | [[q' ->] | [x' ->]]]]]];
          try discriminate.
        injection E as <-. injection Ez as <-. rewrite I in If. discriminate.
      * split; [intros _ | reflexivity].
        eexists. split; [reflexivity |]. left. eauto.
  - intros z E. rewrite E. split.
    + intros ->. reflexivity.
    + intros H. unfold int_to_float.
      destruct (Z.leb_spec (Z.abs (z * 60)) (2 ^ 53)); [reflexivity | lia].
  - intros m Em Ek. unfold getitem. rewrite Em, Ek. reflexivity.
  - intros x E. rewrite E. reflexivity.
Qed.

Lemma tray_start_raised (now : Q) (s : Tray.tray) (e : exn) :
  Tray.raised (Tray.start now s) = Some e ->
  Tray.start now s = Tray.mkOutcome (Some e) [] s.
Proof.
  unfold Tray.start.
  destruct (getitem _ _) as [e1 | v]; [intros [= ->]; reflexivity |].
  destruct (mul_int v 60) as [e1 | secs]; [intros [= ->]; reflexivity |].
  destruct (float_add now secs) as [e1 | t]; [intros [= ->]; reflexivity |].
  discriminate.
Qed.

(** X12: the tray's [tick] is not all or nothing. When the phase has run
    out and the restart raises, the pass raises the same exception after it
    has sent the notification and flipped the phase: the timer is left
    running in the new phase with the old deadline. *)
Theorem tray_tick_half_advances_when_start_raises
  (s : Tray.tray) (now now' : Q) (e : exn) :
  Tray.running s = true ->
  (Tray.end_ts s - now < 1)%Q ->
  Tray.raised
    (Tray.start now'
       (Tray.set_phase (if is_work (Tray.phase s) then "break" else "work") s)) =
  Some e ->
  Tray.result (Tray.tick now now' s) =
  Tray.mkOutcome (Some e) [NotifyStageComplete]
    (Tray.mkTray (Tray.cfg s)
       (if is_work (Tray.phase s) then "break" else "work")
       true (Tray.end_ts s)).
Proof.
  intros Hr Hd He.
  assert (Hz : Tray.remain_at now s <= 0).
  { unfold Tray.remain_at. rewrite Hr. apply remaining_zero_iff, Hd. }
  rewrite (tray_tick_expired now now' s Hr Hz).
  rewrite (tray_start_raised _ _ _ He). simpl.
  unfold Tray.set_phase. rewrite Hr. reflexivity.
Qed.

Lemma tray_run_configured (c : value) (w b : Z) (ops : list op) :
  Tray.configured c w b ->
  Tray.configured (Tray.cfg (Tray.run ops (Tray.init c))) w b.
Proof.
  intros H. rewrite tray_run_cfg. exact H.
Qed.

Lemma tray_start_quiet (now : Q) (s : Tray.tray) (w b : Z) :
  Tray.configured (Tray.cfg s) w b -> Tray.in_range w b ->
  Tray.raised (Tray.start now s) = None.
Proof.
  intros [Hw Hb] [Rw Rb].
  assert (L : 2 ^ 52 < 2 ^ 53) by (apply Z.pow_lt_mono_r; lia).
  pose proof (tray_start_raised_cases now s) as C. simpl in C. rewrite C.
  destruct (is_work (Tray.phase s)); [rewrite Hw | rewrite Hb];
    rewrite int_to_float_small by lia; reflexivity.
Qed.

Lemma tray_tick_quiet (now now' : Q) (s : Tray.tray) (w b : Z) :
  Tray.configured (Tray.cfg s) w b -> Tray.in_range w b ->
  Tray.raised (Tray.result (Tray.tick now now' s)) = None.
Proof.
  intros Hc Hi. unfold Tray.tick.
  destruct (Tray.running s && (Tray.remain_at now s <=? 0)); simpl.
  - apply (tray_start_quiet now' _ w b); assumption.
  - reflexivity.
Qed.

(** X13: a tray whose [cfg] holds int durations in range never raises: in
    every state that starts, pauses, resets and passes can bring it to,
    neither [start] nor [tick] raises. *)
Theorem tray_with_int_durations_never_raises
  (c : value) (w b : Z) (ops : list op) (now now' : Q) :
  Tray.configured c w b -> Tray.in_range w b ->
  let s := Tray.run ops (Tray.init c) in
  Tray.raised (Tray.start now s) = None /\
  Tray.raised (Tray.result (Tray.tick now now' s)) = None.
Proof.
  intros H Hi s.
  assert (Hs : Tray.configured (Tray.cfg s) w b)
    by (apply tray_run_configured, H).
  split.
  - apply (tray_start_quiet now s w b); assumption.
  - apply (tray_tick_quiet now now' s w b); assumption.
Qed.

(** ** More on the settings file *)

(** X14: whatever the file system, the app's [load_config] returns a dict
    that has all three keys, so the defaults that the script passes to
    [cfg.get] are never the ones used. *)
Theorem app_load_config_has_all_keys (f : fs) :
  exists r : gmap string value,
    fst (App.load_config f) = inr (VDict r) /\
    is_Some (r !! "work_minutes") /\
    is_Some (r !! "break_minutes") /\
    is_Some (r !! "theme").
Proof.
  assert (D : forall m : gmap string value,
             is_Some ((m ∪ App.DEFAULTS) !! "work_minutes") /\
             is_Some ((m ∪ App.DEFAULTS) !! "break_minutes") /\
             is_Some ((m ∪ App.DEFAULTS) !! "theme")).
  { intros m. repeat split; apply lookup_union_is_Some; right; eexists; reflexivity. }
  assert (D0 : is_Some (App.DEFAULTS !! "work_minutes") /\
               is_Some (App.DEFAULTS !! "break_minutes") /\
               is_Some (App.DEFAULTS !! "theme"))
    by (repeat split; eexists; reflexivity).
  rewrite app_load_config_cases.
  destruct f as [md c rd wr]; simpl.
  destruct md; [| eauto].
  destruct c as [[| v] |].
  - destruct rd; eauto.
  - destruct rd; [| eauto]. destruct v; eauto.
  - destruct wr; eauto.
Qed.

(** X15: loading twice is loading once: on the file system that a load
    leaves behind, the next load returns the same value and changes nothing
    more. In both front-ends. *)
Theorem load_config_twice_is_once (f : fs) :
  App.load_config (snd (App.load_config f)) = App.load_config f /\
  Tray.load_config (snd (Tray.load_config f)) = Tray.load_config f.
Proof.
  split.
  - rewrite (app_load_config_cases f).
    destruct f as [md c rd wr]; simpl.
    destruct md; [| rewrite app_load_config_cases; reflexivity].
    destruct c as [[| v] |].
    + destruct rd; rewrite app_load_config_cases; reflexivity.
    + destruct rd; [| rewrite app_load_config_cases; reflexivity].
      destruct v; rewrite app_load_config_cases; reflexivity.
    + destruct wr; rewrite app_load_config_cases; simpl; try reflexivity;
        destruct rd; reflexivity.
  - rewrite (tray_load_config_cases f).
    destruct f as [md c rd wr]; simpl.
    destruct md; [| rewrite tray_load_config_cases; reflexivity].
    destruct c as [[| v] |].
    + destruct rd; rewrite tray_load_config_cases; reflexivity.
    + destruct rd; rewrite tray_load_config_cases; reflexivity.
    + destruct wr; rewrite tray_load_config_cases; simpl; try reflexivity;
        destruct rd; reflexivity.
Qed.

(** X16: [save_config] never raises and touches nothing but the file's
    contents. When the open for writing fails the file system is left as it
    was; when the write fails after the open the file is left empty, and the
    next load returns the defaults; and when directory, read and write all
    work, the next load returns the saved dict with the missing keys filled
    in from [DEFAULTS], or plain [DEFAULTS] if what was saved is no dict. *)
Theorem save_config_is_best_effort (v : value) (f : fs) :
  let f' := snd (App.save_config v f) in
  fst (App.save_config v f) = inr tt /\
  can_mkdir f' = can_mkdir f /\ can_read f' = can_read f /\
  can_write f' = can_write f /\
  (can_write f = WriteDenied -> f' = f) /\
  (can_write f = WriteTruncates ->
   config f' = Some Malformed /\
   fst (App.load_config f') = inr (VDict App.DEFAULTS)) /\
  (can_mkdir f = true -> can_read f = true -> can_write f = true ->
   fst (App.load_config f') =
   inr (VDict match v with
              | VDict m => m ∪ App.DEFAULTS
              | _ => App.DEFAULTS
              end)).
Proof.
  intros f'. subst f'. rewrite app_save_config_cases.
  destruct f as [md c rd wr]; simpl.
  destruct wr; simpl; repeat split; try discriminate.
  - intros -> -> _. rewrite app_load_config_cases. simpl.
    destruct v; reflexivity.
  - rewrite app_load_config_cases. simpl. destruct md, rd; reflexivity.
Qed.

(** ** Starting up *)

Lemma initial_settings_of_dict (int_of_str : string -> option Z)
      (m : gmap string value) (w b : Z) (th : value) :
  m !! "work_minutes" = Some (VInt w) ->
  m !! "break_minutes" = Some (VInt b) ->
  m !! "theme" = Some th ->
  AppScript.initial_settings int_of_str (VDict m) = inr (w, b, th).
Proof.
  intros Hw Hb Ht. unfold AppScript.initial_settings, AppScript.dict_get.
  rewrite Hw, Hb, Ht. reflexivity.
Qed.

Lemma int_of_raises (int_of_str : string -> option Z) (v : value)
      (e : AppScript.script_exn) :
  AppScript.int_of int_of_str v = inl e ->
  e = AppScript.Exn TypeError \/ e = AppScript.ValueError \/
  e = AppScript.Exn OverflowError.
Proof.
  destruct v as [| b | z | q | x | str | l | d]; simpl; try discriminate;
    try (intros [= <-]; left; reflexivity).
  - destruct x; intros [= <-]; auto.
  - destruct (int_of_str str); [discriminate | intros [= <-]; auto].
Qed.

(** X17: whenever loading falls back (the directory cannot be made, the
    file is missing, unreadable or malformed, or it holds JSON that is no
    object), the app starts with 25 and 5 minutes and the dark theme, and
    raises nothing, whatever [int] does on strings. *)
Theorem app_startup_falls_back_to_defaults
  (int_of_str : string -> option Z) (f : fs) :
  can_mkdir f = false \/ config f = None \/ can_read f = false \/
  config f = Some Malformed \/
  (exists v, config f = Some (Json v) /\ forall m, v <> VDict m) ->
  fst (AppScript.startup int_of_str f) = inr (25, 5, VStr "dark").
Proof.
  intros H. unfold AppScript.startup. rewrite app_load_config_cases.
  destruct f as [md c rd wr]; simpl in *.
  destruct md; [| reflexivity].
  destruct c as [[| v] |].
  - destruct rd; reflexivity.
  - destruct rd; [| reflexivity].
    destruct v; try reflexivity.
    destruct H as [H | [H | [H | [H | [v [E N]]]]]]; try discriminate.
    injection E as <-. exfalso. eapply N. reflexivity.
  - destruct wr; reflexivity.
Qed.

(** X18: the settings a session persists are the settings the next session
    starts with. When directory, read and write all work, the file that
    [persist] leaves holds exactly the three keys (any other key that was in
    the file is gone), and [startup] on it returns the session's durations
    and theme. *)
Theorem app_startup_reads_what_was_persisted
  (int_of_str : string -> option Z) (s : App.session) (f : fs) :
  can_mkdir f = true -> can_read f = true -> can_write f = true ->
  let f' := snd (AppScript.persist s f) in
  config f' = Some (Json (VDict (AppScript.settings_dict s))) /\
  (forall k, k <> "work_minutes" -> k <> "break_minutes" -> k <> "theme" ->
             AppScript.settings_dict s !! k = None) /\
  fst (AppScript.startup int_of_str f') =
  inr (App.work_minutes s, App.break_minutes s, VStr (App.theme s)).
Proof.
  intros Hm Hr Hw f'. subst f'. unfold AppScript.persist.
  rewrite app_save_config_cases, Hw. simpl.
  split; [reflexivity |]. split.
  - intros k H1 H2 H3. unfold AppScript.settings_dict.
    rewrite !lookup_insert_ne by congruence. apply lookup_empty.
  - unfold AppScript.startup. rewrite app_load_config_cases. simpl.
    rewrite Hm, Hr.
    apply initial_settings_of_dict;
      (apply lookup_union_Some_l; unfold AppScript.settings_dict).
    + apply lookup_insert_eq.
    + rewrite lookup_insert_ne by discriminate. apply lookup_insert_eq.
    + rewrite !lookup_insert_ne by discriminate. apply lookup_insert_eq.
Qed.

(** X19: how the app's start can fail. [startup] raises nothing but
    [TypeError], [ValueError] or [OverflowError] (never what [load_config]
    swallows, never [AttributeError]); a readable file whose object has
    [null], a list or an object under [work_minutes] does make it raise
    [TypeError], and one that has an infinite float there, as [1e400] is
    read, [OverflowError], although [load_config] itself returned
    normally. *)
Theorem app_startup_fails_only_on_a_bad_duration
  (int_of_str : string -> option Z) (f : fs) :
  (forall e, fst (AppScript.startup int_of_str f) = inl e ->
             e = AppScript.Exn TypeError \/ e = AppScript.ValueError \/
             e = AppScript.Exn OverflowError) /\
  (forall (m : gmap string value) (v : value),
      can_mkdir f = true -> can_read f = true ->
      config f = Some (Json (VDict m)) ->
      m !! "work_minutes" = Some v ->
      (exists r, fst (App.load_config f) = inr r) /\
      (v = VNone \/ (exists l, v = VList l) \/ (exists d, v = VDict d) ->
       fst (AppScript.startup int_of_str f) = inl (AppScript.Exn TypeError)) /\
      (v = VNotFinite PosInf \/ v = VNotFinite NegInf ->
       fst (AppScript.startup int_of_str f) = inl (AppScript.Exn OverflowError))).
Proof.
  split.
  - intros e. unfold AppScript.startup.
    destruct (app_load_config_dict f) as [r E].
    destruct (App.load_config f) as [res f']. simpl in E. subst res. simpl.
    unfold AppScript.initial_settings, AppScript.dict_get.
    destruct (AppScript.int_of int_of_str _) as [e1 | w] eqn:E1.
    + intros [= <-]. eapply int_of_raises, E1.
    + destruct (AppScript.int_of int_of_str (default (VInt 5) _)) as [e2 | b] eqn:E2.
      * intros [= <-]. eapply int_of_raises, E2.
      * discriminate.
  - intros m v Hm Hr Hc Hk.
    unfold AppScript.startup. rewrite app_load_config_cases, Hm, Hc, Hr. simpl.
    split; [eauto |].
    unfold AppScript.initial_settings, AppScript.dict_get.
    rewrite (lookup_union_Some_l m App.DEFAULTS _ _ Hk). simpl.
    split.
    + intros [-> | [[l ->] | [d ->]]]; reflexivity.
    + intros [-> | ->]; reflexivity.
Qed.

Lemma tray_configured_quiet (c : value) (w b : Z) (ops : list op) (now now' : Q) :
  Tray.configured c w b -> Tray.in_range w b ->
  Tray.raised (Tray.start now (Tray.run ops (Tray.init c))) = None /\
  Tray.raised (Tray.result (Tray.tick now now' (Tray.run ops (Tray.init c)))) = None.
Proof.
  intros H Hi.
  assert (Hs : Tray.configured (Tray.cfg (Tray.run ops (Tray.init c))) w b)
    by (apply tray_run_configured, H).
  split.
  - apply (tray_start_quiet now _ w b); assumption.
  - apply (tray_tick_quiet now now' _ w b); assumption.
Qed.

(** X20: a tray that boots on a broken or missing settings file works.
    Whenever loading falls back (directory, missing file, read or parse
    failure) the tray boots with the defaults as its [cfg], and from then on
    no [start] and no [tick] raises; and a tray that boots on a readable
    file whose object has int durations in range never raises either. *)
Theorem tray_boot_gives_a_working_timer (f : fs) :
  (can_mkdir f = false \/ config f = None \/ can_read f = false \/
   config f = Some Malformed ->
   fst (TrayScript.boot f) = inr (Tray.init (VDict Tray.defaults))) /\
  (forall (m : gmap string value) (w b : Z),
      can_mkdir f = true -> can_read f = true ->
      config f = Some (Json (VDict m)) ->
      m !! "work_minutes" = Some (VInt w) ->
      m !! "break_minutes" = Some (VInt b) ->
      fst (TrayScript.boot f) = inr (Tray.init (VDict m))) /\
  (forall (t : Tray.tray) (ops : list op) (now now' : Q),
      fst (TrayScript.boot f) = inr t ->
      (can_mkdir f = false \/ config f = None \/ can_read f = false \/
       config f = Some Malformed \/
       exists m w b, config f = Some (Json (VDict m)) /\
                     m !! "work_minutes" = Some (VInt w) /\
                     m !! "break_minutes" = Some (VInt b) /\
                     Tray.in_range w b) ->
      Tray.raised (Tray.start now (Tray.run ops t)) = None /\
      Tray.raised (Tray.result (Tray.tick now now' (Tray.run ops t))) = None).
Proof.
  assert (B : forall g, fst (TrayScript.boot g) =
                        match fst (Tray.load_config g) with
                        | inl e => inl e
                        | inr c => inr (Tray.init c)
                        end).
  { intros g. unfold TrayScript.boot.
    destruct (Tray.load_config g) as [[e | c] g']; reflexivity. }
  assert (F : can_mkdir f = false \/ config f = None \/ can_read f = false \/
              config f = Some Malformed ->
              fst (Tray.load_config f) = inr (VDict Tray.defaults)).
  { rewrite tray_load_config_cases.
    destruct f as [md c rd wr]; simpl.
    intros [-> | [-> | [-> | ->]]].
    - reflexivity.
    - destruct md; [| reflexivity]. destruct wr; reflexivity.
    - destruct md; [| reflexivity]. destruct c; [reflexivity |].
      destruct wr; reflexivity.
    - destruct md; [| reflexivity]. destruct rd; reflexivity. }
  assert (D : Tray.configured (VDict Tray.defaults) 25 5 /\ Tray.in_range 25 5).
  { split; split; reflexivity. }
  split; [| split].
  - intros H. rewrite B, (F H). reflexivity.
  - intros m w b Hm Hr Hc _ _. rewrite B, tray_load_config_cases, Hm, Hc, Hr.
    reflexivity.
  - intros t ops now now' Ht H.
    assert (C : exists c w b, t = Tray.init c /\ Tray.configured c w b /\
                              Tray.in_range w b).
    { rewrite B in Ht.
      destruct H as [H | [H | [H | [H | [m [w [b [Hc [Hw [Hb Hi]]]]]]]]]].
      1-4: rewrite (F ltac:(tauto)) in Ht; injection Ht as <-;
           exists (VDict Tray.defaults), 25, 5; split; [reflexivity | exact D].
      rewrite tray_load_config_cases, Hc in Ht.
      destruct (can_mkdir f), (can_read f); simpl in Ht; injection Ht as <-.
      - exists (VDict m), w, b. split; [reflexivity |]. split; [| exact Hi].
        split; simpl; [rewrite Hw | rewrite Hb]; reflexivity.
      - exists (VDict Tray.defaults), 25, 5. split; [reflexivity | exact D].
      - exists (VDict Tray.defaults), 25, 5. split; [reflexivity | exact D].
      - exists (VDict Tray.defaults), 25, 5. split; [reflexivity | exact D]. }
    destruct C as [c [w [b [-> [Hc Hi]]]]].
    apply (tray_configured_quiet c w b ops now now' Hc Hi).
Qed.

(** X21: a settings file that holds JSON which is no object (a list, a
    number, a string, [null]). The app falls back to its defaults. The tray
    takes the value as its [cfg], and then its timer cannot be started:
    in every state it can reach, [start] raises [TypeError]. *)
Theorem non_object_settings_file
  (f : fs) (v : value) (ops : list op) (now : Q) :
  can_mkdir f = true -> can_read f = true ->
  config f = Some (Json v) -> (forall m, v <> VDict m) ->
  fst (App.load_config f) = inr (VDict App.DEFAULTS) /\
  fst (TrayScript.boot f) = inr (Tray.init v) /\
  Tray.raised (Tray.start now (Tray.run ops (Tray.init v))) = Some TypeError /\
  Tray.running (Tray.run ops (Tray.init v)) = false.
Proof.
  intros Hm Hr Hc Hv.
  split; [| split; [| split]].
  - rewrite app_load_config_cases, Hm, Hc, Hr.
    destruct v; try reflexivity. exfalso. eapply Hv. reflexivity.
  - unfold TrayScript.boot. rewrite tray_load_config_cases, Hm, Hc, Hr.
    reflexivity.
  - unfold Tray.start. rewrite tray_run_cfg. simpl.
    destruct v; try reflexivity. exfalso. eapply Hv. reflexivity.
  - assert (S : forall s o, Tray.cfg s = v -> Tray.running s = false ->
                            Tray.running (Tray.step s o) = false).
    { intros s o Ec Er. destruct o as [t | | | t t']; simpl; try reflexivity.
      - unfold Tray.start. rewrite Ec.
        destruct v; try exact Er. exfalso. eapply Hv. reflexivity.
      - rewrite tray_tick_idle by exact Er. exact Er. }
    assert (R : forall l s, Tray.cfg s = v -> Tray.running s = false ->
                            Tray.running (Tray.run l s) = false).
    { induction l as [| o l IH]; intros s Ec Er; [exact Er |].
      simpl. apply IH; [rewrite tray_step_cfg; exact Ec | apply S; assumption]. }
    apply R; reflexivity.
Qed.

(** ** What is shown *)

Lemma string_length_append (s t : string) :
  String.length (s +:+ t) = (String.length s + String.length t)%nat.
Proof.
  induction s as [| c s IH]; [reflexivity |].
  change (S (String.length (s +:+ t)) = S (String.length s + String.length t))%nat.
  rewrite IH. reflexivity.
Qed.

(** Two texts that end in tails of one length agree part by part. *)
Lemma string_append_split (s1 s2 t1 t2 : string) :
  s1 +:+ t1 = s2 +:+ t2 -> String.length t1 = String.length t2 ->
  s1 = s2 /\ t1 = t2.
Proof.
  revert s2. induction s1 as [| c s1 IH]; intros [| c2 s2] E L.
  - split; [reflexivity | exact E].
  - exfalso. apply (f_equal String.length) in E.
    rewrite !string_length_append in E. simpl in E. lia.
  - exfalso. apply (f_equal String.length) in E.
    rewrite !string_length_append in E. simpl in E. lia.
  - change (String c (s1 +:+ t1) = String c2 (s2 +:+ t2)) in E.
    injection E as -> E. destruct (IH s2 E L) as [-> ->]. split; reflexivity.
Qed.

(** Reading [f"{n:02d}"] back as a decimal gives [n]. *)
Lemma fmt_02d_reads_back (n : Z) :
  option_map Z.of_int (NilZero.int_of_string (fmt_02d n)) = Some n.
Proof.
  assert (U : option_map Z.of_int (NilZero.int_of_string (str_of_int n)) = Some n).
  { unfold str_of_int. rewrite NilZero.isi.
    - simpl. rewrite DecimalZ.of_to. reflexivity.
    - destruct n; simpl; try discriminate.
      intros [= E]. apply (Unsigned.to_uint_nonnil _ E).
    - destruct n; simpl; try discriminate.
      intros [= E]. apply (Unsigned.to_uint_nonnil _ E). }
  unfold fmt_02d.
  destruct (String.length (str_of_int n) <? 2)%nat eqn:L; [| exact U].
  unfold str_of_int in *.
  destruct n as [| p | p]; [reflexivity | |].
  - simpl Z.to_int in *. simpl NilZero.string_of_int in *.
    assert (N : Pos.to_uint p <> Decimal.Nil) by apply Unsigned.to_uint_nonnil.
    pose proof (DecimalZ.of_to (Z.pos p)) as O. simpl in O.
    destruct (Pos.to_uint p) as [| u | u | u | u | u | u | u | u | u | u] eqn:Eu;
      [congruence | ..];
      simpl; rewrite NilEmpty.usu; simpl; simpl in O; rewrite <- O; reflexivity.
  - exfalso. simpl in L.
    assert (N : Pos.to_uint p <> Decimal.Nil) by apply Unsigned.to_uint_nonnil.
    destruct (Pos.to_uint p); [congruence | ..]; simpl in L; discriminate.
Qed.

Lemma fmt_02d_inj (a b : Z) : fmt_02d a = fmt_02d b -> a = b.
Proof.
  intros E. pose proof (fmt_02d_reads_back a) as Ha.
  rewrite E, fmt_02d_reads_back in Ha. congruence.
Qed.

Lemma fmt_02d_two_digits (x : Z) :
  0 <= x < 100 -> String.length (fmt_02d x) = 2%nat.
Proof.
  intros H.
  assert (A : forallb (fun k => (String.length (fmt_02d (Z.of_nat k)) =? 2)%nat)
                (seq 0 100) = true) by (vm_compute; reflexivity).
  rewrite forallb_forall in A.
  specialize (A (Z.to_nat x)).
  rewrite Z2Nat.id in A by lia.
  apply Nat.eqb_eq, A, in_seq. lia.
Qed.

(** X22: [format_mmss] shows different seconds differently: two counts of
    seconds, negative ones included, that come out as the same text are the
    same count. *)
Theorem format_mmss_is_injective (a b : Z) :
  AppScript.format_mmss a = AppScript.format_mmss b -> a = b.
Proof.
  unfold AppScript.format_mmss. intros E.
  assert (La : String.length (":" +:+ fmt_02d (a mod 60)) = 3%nat).
  { rewrite string_length_append, fmt_02d_two_digits; [reflexivity |].
    pose proof (Z.mod_pos_bound a 60). lia. }
  assert (Lb : String.length (":" +:+ fmt_02d (b mod 60)) = 3%nat).
  { rewrite string_length_append, fmt_02d_two_digits; [reflexivity |].
    pose proof (Z.mod_pos_bound b 60). lia. }
  destruct (string_append_split _ _ _ _ E) as [Em Es]; [congruence |].
  apply fmt_02d_inj in Em.
  destruct (string_append_split ":" ":" _ _ Es) as [_ Es'].
  { rewrite !fmt_02d_two_digits; [reflexivity | |].
    - pose proof (Z.mod_pos_bound b 60). lia.
    - pose proof (Z.mod_pos_bound a 60). lia. }
  apply fmt_02d_inj in Es'.
  rewrite (Z.div_mod a 60), (Z.div_mod b 60) by lia. congruence.
Qed.

(** X23: below a hundred minutes [format_mmss] gives exactly five
    characters, two for the minutes, a colon, two for the seconds. *)
Theorem format_mmss_is_five_wide (n : Z) :
  0 <= n < 6000 ->
  String.length (AppScript.format_mmss n) = 5%nat /\
  String.get 2 (AppScript.format_mmss n) = Some ":"%char.
Proof.
  intros H. unfold AppScript.format_mmss.
  assert (Hm : 0 <= n / 60 < 100).
  { split; [apply Z.div_pos; lia | apply Z.div_lt_upper_bound; lia]. }
  assert (Hs : 0 <= n mod 60 < 100) by (pose proof (Z.mod_pos_bound n 60); lia).
  pose proof (fmt_02d_two_digits _ Hm) as Lm.
  pose proof (fmt_02d_two_digits _ Hs) as Ls.
  split.
  - rewrite !string_length_append, Lm, Ls. reflexivity.
  - destruct (fmt_02d (n / 60)) as [| c1 [| c2 [| c3 m]]]; try discriminate.
    reflexivity.
Qed.

(** X24: what the app shows on a pass. While the timer is idle it is the
    full length of the current phase, the configured minutes and [:00];
    while it runs it is the seconds the pass computed. *)
Theorem app_display_idle_and_running (s : App.session) (now now' : Q) :
  (App.running s = false ->
   AppScript.display (App.tick now now' s) =
   fmt_02d (if is_work (App.phase s) then App.work_minutes s
            else App.break_minutes s) +:+ ":00") /\
  (App.running s = true ->
   AppScript.display (App.tick now now' s) =
   AppScript.format_mmss (Z.max 0 (py_int (App.end_time s - now)%Q))).
Proof.
  unfold AppScript.display. split; intros Hr.
  - rewrite app_tick_idle by exact Hr. simpl.
    unfold AppScript.format_mmss.
    destruct (is_work (App.phase s));
      rewrite Z.div_mul, Z.mod_mul by lia; reflexivity.
  - unfold App.tick, App.remaining_at. rewrite Hr. simpl.
    destruct (Z.max 0 _ <=? 0); reflexivity.
Qed.

(** X25: what the tray shows on a pass: the letter of the phase the pass
    began in, a space, and the seconds of the pass as the app's
    [format_mmss] writes them. While the timer is idle that is [00:00],
    where the app shows the length of the phase. *)
Theorem tray_label_text (s : Tray.tray) (now now' : Q) :
  let p := Tray.tick now now' s in
  let letter := if is_work (Tray.phase s) then "F" else "B" in
  TrayScript.label_text (Tray.label p) =
  letter +:+ " " +:+ AppScript.format_mmss (Tray.remain p) /\
  (Tray.running s = false ->
   TrayScript.label_text (Tray.label p) = letter +:+ " 00:00").
Proof.
  intros p letter. subst p letter. split.
  - unfold Tray.tick.
    destruct (Tray.running s && (Tray.remain_at now s <=? 0)); reflexivity.
  - intros Hr. rewrite tray_tick_idle by exact Hr. simpl.
    destruct (is_work (Tray.phase s)); reflexivity.
Qed.

(** ** The further theorems at concrete timers and files *)

(** Two passes over a running app timer whose deadline is far off, and over
    a running tray timer. *)
Lemma passes_keep_running_twice :
  App.running
    (App.run [Tick 0 0; Tick 1 1] (App.mkSession 25 5 "dark" "work" true 100)) = true /\
  Tray.running
    (Tray.run [Tick 0 0; Tick 1 1]
       (Tray.mkTray (VDict Tray.defaults) "work" true 100)) = true.
Proof.
  split.
  - apply (proj1 passes_keep_running [Tick 0 0; Tick 1 1]
             (App.mkSession 25 5 "dark" "work" true 100%Q)).
    repeat constructor.
  - apply (proj2 passes_keep_running [Tick 0 0; Tick 1 1]
             (Tray.mkTray (VDict Tray.defaults) "work" true 100%Q)).
    repeat constructor.
Defined.

(** Two passes over a fresh app session and over a fresh tray. *)
Lemma idle_passes_change_nothing_twice :
  App.run [Tick 0 0; Tick 5 5] (App.init 25 5 "dark") = App.init 25 5 "dark" /\
  Tray.run [Tick 0 0; Tick 5 5] (Tray.init (VDict Tray.defaults)) =
  Tray.init (VDict Tray.defaults).
Proof.
  split.
  - apply (proj1 idle_passes_change_nothing); [repeat constructor | reflexivity].
  - apply (proj2 idle_passes_change_nothing); [repeat constructor | reflexivity].
Defined.

(** Five seconds before the deadline nothing is emitted. *)
Lemma pass_expires_iff_under_a_second_at_5 :
  App.emitted (App.tick 5 5 (App.mkSession 25 5 "dark" "work" true 10)) = [] /\
  App.after (App.tick 5 5 (App.mkSession 25 5 "dark" "work" true 10)) =
  App.mkSession 25 5 "dark" "work" true 10.
Proof.
  apply (proj2 (proj1 pass_expires_iff_under_a_second
                  (App.mkSession 25 5 "dark" "work" true 10%Q) 5%Q 5%Q)).
  intros [_ H]. vm_compute in H. discriminate H.
Defined.

(** Ten seconds into a 25-minute phase no more than 1500 seconds are left. *)
Lemma countdown_is_bounded_and_monotone_at_10 :
  App.remaining_at 10 (App.start_timer 0 (App.init 25 5 "dark")) <= 25 * 60.
Proof.
  apply (proj1 (proj2 countdown_is_bounded_and_monotone)
           (App.init 25 5 "dark") 0%Q 10%Q).
  - unfold App.from_widgets. simpl. lia.
  - at_clock.
  - vm_compute. discriminate.
  - vm_compute. discriminate.
Defined.

(** A tray with the default 25 minutes started at 0 and ticked at 2000. *)
Lemma phase_expires_after_its_length_at_2000 :
  In NotifyStageComplete
    (Tray.emitted
       (Tray.result
          (Tray.tick 2000 2000
             (Tray.after (Tray.start 0 (Tray.init (VDict Tray.defaults))))))).
Proof.
  apply (proj1 (proj2 phase_expires_after_its_length
                  (Tray.init (VDict Tray.defaults)) 0%Q 2000%Q 2000%Q 25 5
                  (conj eq_refl eq_refl) ltac:(split; reflexivity)
                  ltac:(at_clock))).
  reflexivity.
Defined.

(** A tray with the defaults, paused and started again at 9. *)
Lemma start_restarts_from_full_length_at_9 :
  Tray.start 9 (Tray.pause (Tray.mkTray (VDict Tray.defaults) "work" true 5)) =
  Tray.start 9 (Tray.mkTray (VDict Tray.defaults) "work" true 5).
Proof.
  apply (proj2 start_restarts_from_full_length
           (Tray.mkTray (VDict Tray.defaults) "work" true 5%Q) 0%Q 9%Q 25 5).
  - split; reflexivity.
  - split; reflexivity.
  - at_clock.
  - at_clock.
Defined.

(** A tray whose file says 0 and 0 minutes. *)
Lemma nonpositive_durations_expire_every_pass_at_zero :
  let c := VDict (<["work_minutes" := VInt 0]> {["break_minutes" := VInt 0]}) in
  let s := Tray.mkTray c "work" true 0 in
  let o := Tray.result (Tray.tick 0 0 s) in
  In NotifyStageComplete (Tray.emitted o) /\
  Tray.running (Tray.after o) = true /\
  (Tray.end_ts (Tray.after o) - 1 < 1)%Q.
Proof.
  intros c s.
  apply (nonpositive_durations_expire_every_pass s 0%Q 0%Q 1%Q 0 0);
    try reflexivity; try at_clock; try (split; reflexivity);
    vm_compute; discriminate.
Defined.

(** Twenty-five minutes, as an int in the file. *)
Lemma tray_start_needs_a_number_at_25 :
  let s := Tray.init (VDict {["work_minutes" := VInt 25]}) in
  Tray.raised (Tray.start 100 s) = None.
Proof.
  intros s.
  apply (proj2 (proj1 (proj2 (tray_start_needs_a_number 100%Q s)) 25 eq_refl)).
  vm_compute. discriminate.
Defined.

(** A tray whose file has [work_minutes] only, at the end of its work. *)
Lemma tray_tick_half_advances_without_break_minutes :
  let s := Tray.mkTray (VDict {["work_minutes" := VInt 1]}) "work" true 60 in
  Tray.result (Tray.tick 60 60 s) =
  Tray.mkOutcome (Some KeyError) [NotifyStageComplete]
    (Tray.mkTray (VDict {["work_minutes" := VInt 1]}) "break" true 60).
Proof.
  intros s.
  apply (tray_tick_half_advances_when_start_raises s 60%Q 60%Q KeyError);
    reflexivity.
Defined.

(** The default tray, started and ticked. *)
Lemma tray_with_int_durations_never_raises_by_default :
  Tray.raised
    (Tray.start 2
       (Tray.run [Start 0; Tick 1 1] (Tray.init (VDict Tray.defaults)))) = None /\
  Tray.raised
    (Tray.result
       (Tray.tick 2 2
          (Tray.run [Start 0; Tick 1 1] (Tray.init (VDict Tray.defaults))))) = None.
Proof.
  apply (tray_with_int_durations_never_raises (VDict Tray.defaults) 25 5
           [Start 0%Q; Tick 1%Q 1%Q] 2%Q 2%Q).
  - split; reflexivity.
  - split; reflexivity.
Defined.

(** Saving a lone theme where everything works, then loading. *)
Lemma save_config_is_best_effort_on_a_theme :
  let v := VDict {["theme" := VStr "light"]} in
  let f := mkFs true None true true in
  fst (App.load_config (snd (App.save_config v f))) =
  inr (VDict ({["theme" := VStr "light"]} ∪ App.DEFAULTS)).
Proof.
  intros v f.
  apply (proj2 (proj2 (proj2 (proj2 (proj2 (proj2
           (save_config_is_best_effort v f)))))));
    reflexivity.
Defined.

(** No directory, no file. *)
Lemma app_startup_falls_back_without_directory :
  fst (AppScript.startup (fun _ => None) (mkFs false None false false)) =
  inr (25, 5, VStr "dark").
Proof.
  apply app_startup_falls_back_to_defaults. left. reflexivity.
Defined.

(** A session of 50 and 10 minutes in the light theme, persisted where
    everything works. *)
Lemma app_startup_reads_what_was_persisted_50_10 :
  let s := App.init 50 10 "light" in
  let f := mkFs true (Some Malformed) true true in
  fst (AppScript.startup (fun _ => None) (snd (AppScript.persist s f))) =
  inr (50, 10, VStr "light").
Proof.
  intros s f.
  apply (proj2 (proj2 (app_startup_reads_what_was_persisted
                         (fun _ => None) s f eq_refl eq_refl eq_refl))).
Defined.

(** A file that says ["work_minutes": null]. *)
Lemma app_startup_fails_on_null :
  let f := mkFs true (Some (Json (VDict {["work_minutes" := VNone]}))) true true in
  fst (AppScript.startup (fun _ => None) f) = inl (AppScript.Exn TypeError).
Proof.
  intros f.
  apply (proj1 (proj2 (proj2 (app_startup_fails_only_on_a_bad_duration
                                (fun _ => None) f)
                         {["work_minutes" := VNone]} VNone
                         eq_refl eq_refl eq_refl eq_refl))).
  left. reflexivity.
Defined.

(** A tray booted on a malformed file. *)
Lemma tray_boot_on_malformed :
  fst (TrayScript.boot (mkFs true (Some Malformed) true true)) =
  inr (Tray.init (VDict Tray.defaults)).
Proof.
  apply (proj1 (tray_boot_gives_a_working_timer
                  (mkFs true (Some Malformed) true true))).
  right; right; right. reflexivity.
Defined.

(** A file that holds [[]]. *)
Lemma non_object_settings_file_empty_list :
  let f := mkFs true (Some (Json (VList []))) true true in
  fst (App.load_config f) = inr (VDict App.DEFAULTS) /\
  fst (TrayScript.boot f) = inr (Tray.init (VList [])) /\
  Tray.raised (Tray.start 1 (Tray.run [Start 0] (Tray.init (VList [])))) =
  Some TypeError /\
  Tray.running (Tray.run [Start 0] (Tray.init (VList []))) = false.
Proof.
  intros f.
  apply (non_object_settings_file f (VList []) [Start 0%Q] 1%Q);
    try reflexivity.
  intros m. discriminate.
Defined.

(** Ninety seconds. *)
Lemma format_mmss_is_injective_at_90 :
  AppScript.format_mmss (30 + 60) = AppScript.format_mmss 90 /\ 30 + 60 = 90.
Proof.
  split; [reflexivity |].
  apply (format_mmss_is_injective (30 + 60) 90). reflexivity.
Defined.

(** Twenty-five minutes. *)
Lemma format_mmss_is_five_wide_at_1500 :
  String.length (AppScript.format_mmss 1500) = 5%nat /\
  String.get 2 (AppScript.format_mmss 1500) = Some ":"%char.
Proof.
  apply (format_mmss_is_five_wide 1500). lia.
Defined.

(** A fresh session of 25 and 5 minutes shows 25 minutes. *)
Lemma app_display_idle_at_25 :
  AppScript.display (App.tick 0 0 (App.init 25 5 "dark")) = fmt_02d 25 +:+ ":00".
Proof.
  apply (proj1 (app_display_idle_and_running (App.init 25 5 "dark") 0%Q 0%Q)).
  reflexivity.
Defined.

(** A fresh tray shows no time. *)
Lemma tray_label_text_when_idle :
  TrayScript.label_text
    (Tray.label (Tray.tick 0 0 (Tray.init (VDict Tray.defaults)))) = "F 00:00".
Proof.
  apply (proj2 (tray_label_text (Tray.init (VDict Tray.defaults)) 0%Q 0%Q)).
  reflexivity.
Defined.
